(** * valideero: schema resolution, validator evaluation and error rendering

    A shallow embedding of [valideero/base.py] and [valideero/validators.py]
    (Python 3 branch of [valideero/compat.py]).

    Python objects are references to mutable state.  The embedding keeps the
    validation contexts in a store indexed by identifiers (a validator and a
    [ValidationError] hold the identifier of the context they are bound to),
    and threads validator objects explicitly: a method that mutates [self]
    returns the new state of [self].

    A call returns a value, raises [ValidationError] or raises another
    exception ([outcome]); [ValidationContext.parse], whose recursion follows
    the schemas that validators and factories hold, takes a bound on the
    depth of its nested calls.

    The values are [None], booleans, integers, strings, lists, tuples and
    dicts.  The validators are those of [validators.py] except [Enum],
    [Range], [Pattern] and the date and time types with a state of their
    own; a validator of any other class is a [Custom] one, given by its
    [validate] method. *)

From Stdlib Require Import ZArith String List Bool Arith Lia DecimalString Permutation.
Import ListNotations.

Set Warnings "-register-all".

Local Open Scope string_scope.
Local Open Scope list_scope.

(** string concatenation *)
Infix "+:+" := String.append (at level 60, right associativity).

(* ================================================================== *)
(** ** Python values *)

(** The runtime values that are validated.  A [dict] is an association list
    in insertion order, which is the order in which Python 3 iterates it. *)
Inductive pyvalue : Type :=
| PNone
| PBool (b : bool)
| PInt (n : Z)
| PStr (s : string)
| PList (items : list pyvalue)
| PTuple (items : list pyvalue)
| PDict (items : list (pyvalue * pyvalue)).

(** Classes, as far as [isinstance], [__class__] and [__name__] need them:
    the classes of the values above, the abstract base classes the validators
    name ([numbers.Integral], [numbers.Number], [collections.Sequence],
    [collections.Mapping]) and any other class, which has no instance among
    the values above. *)
Inductive pyclass : Type :=
| CObject | CNoneType | CBool | CInt | CFloat | CStr | CList | CTuple | CDict
| CIntegral | CNumber | CSequence | CMapping
| CUser (name : string).

Definition pyclass_eqb (c d : pyclass) : bool :=
  match c, d with
  | CObject, CObject | CNoneType, CNoneType | CBool, CBool | CInt, CInt
  | CFloat, CFloat | CStr, CStr | CList, CList | CTuple, CTuple
  | CDict, CDict | CIntegral, CIntegral | CNumber, CNumber
  | CSequence, CSequence | CMapping, CMapping => true
  | CUser a, CUser b => String.eqb a b
  | _, _ => false
  end.

(** [cls.__name__] *)
Definition class_name (c : pyclass) : string :=
  match c with
  | CObject => "object" | CNoneType => "NoneType" | CBool => "bool"
  | CInt => "int" | CFloat => "float" | CStr => "str" | CList => "list"
  | CTuple => "tuple" | CDict => "dict" | CIntegral => "Integral"
  | CNumber => "Number" | CSequence => "Sequence" | CMapping => "Mapping"
  | CUser name => name
  end.

(** [value.__class__] *)
Definition class_of (v : pyvalue) : pyclass :=
  match v with
  | PNone => CNoneType | PBool _ => CBool | PInt _ => CInt | PStr _ => CStr
  | PList _ => CList | PTuple _ => CTuple | PDict _ => CDict
  end.

(** [issubclass c d]: [bool] is a subclass of [int]; the abstract base
    classes are the registered ones of the standard library. *)
Definition issubclass (c d : pyclass) : bool :=
  pyclass_eqb c d ||
  match d with
  | CObject => true
  | CInt => pyclass_eqb c CBool
  | CIntegral => pyclass_eqb c CBool || pyclass_eqb c CInt
  | CNumber => pyclass_eqb c CBool || pyclass_eqb c CInt
               || pyclass_eqb c CFloat || pyclass_eqb c CIntegral
  | CSequence => pyclass_eqb c CStr || pyclass_eqb c CList
                 || pyclass_eqb c CTuple
  | CMapping => pyclass_eqb c CDict
  | _ => false
  end.

(** [isinstance(value, types)], [types] a class or a tuple of classes. *)
Definition isinstance (v : pyvalue) (types : list pyclass) : bool :=
  existsb (issubclass (class_of v)) types.

(** [isinstance(x, string_types)] *)
Definition is_string (v : pyvalue) : bool :=
  match v with PStr _ => true | _ => false end.

(** Python's [==] on these values: a [bool] is the integer 0 or 1, sequences
    compare element by element, dicts compare as sets of items. *)
Fixpoint py_eqb (x y : pyvalue) {struct x} : bool :=
  match x, y with
  | PNone, PNone => true
  | PBool a, PBool b => Bool.eqb a b
  | PBool a, PInt n => Z.eqb (Z.b2z a) n
  | PInt n, PBool a => Z.eqb n (Z.b2z a)
  | PInt a, PInt b => Z.eqb a b
  | PStr a, PStr b => String.eqb a b
  | PList a, PList b | PTuple a, PTuple b =>
      (fix seq_eqb (a b : list pyvalue) {struct a} : bool :=
         match a, b with
         | [], [] => true
         | x :: a', y :: b' => py_eqb x y && seq_eqb a' b'
         | _, _ => false
         end) a b
  | PDict a, PDict b =>
      Nat.eqb (length a) (length b) &&
      (fix all_items (a : list (pyvalue * pyvalue)) {struct a} : bool :=
         match a with
         | [] => true
         | (k, v) :: a' =>
             (fix find (b : list (pyvalue * pyvalue)) : bool :=
                match b with
                | [] => false
                | (k', v') :: b' => if py_eqb k k' then py_eqb v v' else find b'
                end) b && all_items a'
         end) a
  | _, _ => false
  end.

(** [x in l] for a list *)
Definition py_in (x : pyvalue) (l : list pyvalue) : bool :=
  existsb (py_eqb x) l.

(** *** dict operations

    A dict is an association list; the keys are compared with [==]. *)

(** [d.get(k)]; [None] when the key is absent *)
Fixpoint lookup {A : Type} (k : pyvalue) (d : list (pyvalue * A)) : option A :=
  match d with
  | [] => None
  | (k', v) :: d' => if py_eqb k k' then Some v else lookup k d'
  end.

(** [d[k] = v]: an existing key keeps its place, a new one goes last *)
Fixpoint assign {A : Type} (k : pyvalue) (v : A) (d : list (pyvalue * A))
  : list (pyvalue * A) :=
  match d with
  | [] => [(k, v)]
  | (k', v') :: d' =>
      if py_eqb k k' then (k', v) :: d' else (k', v') :: assign k v d'
  end.

(** [del d[k]]; [None] stands for the [KeyError] of an absent key *)
Fixpoint delete {A : Type} (k : pyvalue) (d : list (pyvalue * A))
  : option (list (pyvalue * A)) :=
  match d with
  | [] => None
  | (k', v') :: d' =>
      if py_eqb k k' then Some d'
      else option_map (cons (k', v')) (delete k d')
  end.

Definition dict := list (pyvalue * pyvalue).

(** iterating a dict yields its keys *)
Definition dict_keys (d : dict) : list pyvalue := map fst d.

(** [k in d] *)
Definition dict_contains (k : pyvalue) (d : dict) : bool :=
  match lookup k d with Some _ => true | None => false end.

(** [dict(pairs)]: a later pair replaces an earlier one with an equal key *)
Definition dict_of_pairs (pairs : list (pyvalue * pyvalue)) : dict :=
  fold_left (fun d kv => assign (fst kv) (snd kv) d) pairs [].

(** *** sets

    A set is a duplicate-free list.  Python leaves the iteration order of a
    set unspecified; the embedding iterates in insertion order, and the
    statements about a rendered set are made up to a permutation. *)
Definition set_add (x : pyvalue) (s : list pyvalue) : list pyvalue :=
  if py_in x s then s else s ++ [x].

(** [s.difference(iterable)] *)
Definition set_difference (s other : list pyvalue) : list pyvalue :=
  filter (fun x => negb (py_in x other)) s.

(** *** strings *)

(** [sep.join(parts)] *)
Definition join (sep : string) (parts : list string) : string :=
  String.concat sep parts.

(** [str(n)] for an integer *)
Definition string_of_Z (z : Z) : string := NilZero.string_of_int (Z.to_int z).

(** A string is true unless it is empty: [name or other]. *)
Definition str_or (name : option string) (other : string) : string :=
  match name with
  | Some "" | None => other
  | Some s => s
  end.

(* ================================================================== *)
(** ** Exceptions and results *)

(** Identifier of a [ValidationContext] object. *)
Definition ctx_id := nat.

(** [ValidationError]: [value = None] is the [UNDEFINED] default;
    [error_path_items] is in the order of the [append]s, innermost first. *)
Record ValidationError : Type := mkValidationError {
  val_context : option ctx_id;
  msg : string;
  value : option pyvalue;
  error_path_items : list pyvalue
}.

(** [ValidationError(val_context, msg, value)] *)
Definition new_error (c : option ctx_id) (m : string) (v : pyvalue)
  : ValidationError :=
  mkValidationError c m (Some v) [].

(** [ex.add_error_path_item(context)] *)
Definition add_error_path_item (ex : ValidationError) (item : pyvalue)
  : ValidationError :=
  mkValidationError (val_context ex) (msg ex) (value ex)
                    (error_path_items ex ++ [item]).

(** Any other exception: its class and [str(ex)]. *)
Record pyexn : Type := mkExn { exn_class : string; exn_message : string }.

Definition AttributeError (m : string) : pyexn := mkExn "AttributeError" m.
Definition TypeError (m : string) : pyexn := mkExn "TypeError" m.
Definition KeyError (m : string) : pyexn := mkExn "KeyError" m.
Definition IndexError (m : string) : pyexn := mkExn "IndexError" m.

(** What a call does: it returns, raises [ValidationError], or raises
    something else. *)
Inductive outcome (A : Type) : Type :=
| Ok (a : A)
| Invalid (ex : ValidationError)
| Raise (x : pyexn).
Arguments Ok {A} a.
Arguments Invalid {A} ex.
Arguments Raise {A} x.

Definition bind {A B : Type} (m : outcome A) (k : A -> outcome B) : outcome B :=
  match m with
  | Ok a => k a
  | Invalid ex => Invalid ex
  | Raise x => Raise x
  end.

Notation "x <- m ;; k" := (bind m (fun x => k))
  (at level 61, m at next level, right associativity).
Notation "m ;; k" := (bind m (fun _ => k))
  (at level 61, right associativity).

(* ================================================================== *)
(** ** Validators and schema objects *)

(** A default: a value, or a zero-argument callable (given by what the call
    does). *)
Inductive pydefault : Type :=
| DefaultValue (v : pyvalue)
| DefaultCallable (call : outcome pyvalue).

(** [default if not callable(default) else default()] *)
Definition apply_default (d : pydefault) : outcome pyvalue :=
  match d with
  | DefaultValue v => Ok v
  | DefaultCallable call => call
  end.

(** A key of the [properties] dict of [Object]: a plain key, or
    [Optional(key, default)] where [default = None] is [UNDEFINED]. *)
Inductive property : Type :=
| Key (p : pyvalue)
| Optional (key : pyvalue) (default : option pydefault).

(** [validator]: an instance of a [Validator] subclass, the field
    [val_context] of the base class and the fields of the subclass.
    An attribute that [parse] deletes ([_schemas], [_schema], ...) is an
    [option]: [None] once deleted.

    [pyobj]: the objects a schema is made of. *)
Inductive validator : Type :=
| Validator (ctx : option ctx_id) (body : vbody)

with vbody : Type :=
(* Type and its subclasses without state: Boolean, Integer, Number, ... *)
| Type_ (name : option string) (accept_types reject_types : list pyclass)
| String_ (min_length max_length : option Z)
| NoneValue (default : pydefault)
| AnyOf (schemas : option (list pyobj)) (validators : list validator)
| AllOf (schemas : option (list pyobj)) (validators : list validator)
| ChainOf (schemas : option (list pyobj)) (validators : list validator)
| Nullable (schema : option pyobj) (default : pydefault)
           (inner : option validator)
| Condition (predicate_name : string) (predicate : pyvalue -> outcome bool)
            (traps : string -> bool)
| AdaptBy (adaptor : pyvalue -> outcome pyvalue) (traps : string -> bool)
| AdaptTo (target_cls : pyclass) (adaptor : pyvalue -> outcome pyvalue)
          (traps : string -> bool) (exact : bool)
| HomogeneousSequence (item_schema : option (option pyobj))
                      (min_length max_length : option Z)
                      (item_validator : option validator)
| HeterogeneousSequence (item_schemas : option (list pyobj))
                        (item_validators : list validator)
| Mapping (schemas : option (option pyobj * option pyobj))
          (key_validator value_validator : option validator)
| Object (all : option (list (pyvalue * pyobj)))
         (optional_defaults : list (pyvalue * pydefault))
         (required_keys : list pyvalue)
         (all_keys : list pyvalue)
         (additional : pyobj)
         (ignore_optional_errors : bool)
         (named_validators : option (list (pyvalue * validator)))
(* any other subclass of Validator, with its own [validate] *)
| Custom (cls_name : string) (name : option string)
         (validate_fn : option ctx_id -> pyvalue -> outcome pyvalue)

with pyobj : Type :=
| OValidator (v : validator)
(* a subclass of Validator, given by what calling it without arguments
   builds ([None]: the constructor needs arguments) *)
| OValidatorClass (cls_name : string) (new : option validator)
| OClass (c : pyclass)
(* a callable that is not a class *)
| OCallable (name : string) (call : pyvalue -> outcome bool)
| ONone
| OBool (b : bool)
| OInt (n : Z)
| OStr (s : string)
| OList (items : list pyobj)
| OTuple (items : list pyobj)
| ODict (items : list (property * pyobj))
(* the sentinel [REMOVE = object()] *)
| REMOVE.

(** [self.val_context] *)
Definition bound_context (v : validator) : option ctx_id :=
  match v with Validator ctx _ => ctx end.


(** [Validator.set_validation_context]: the context is set only once. *)
Definition set_validation_context (self : validator) (context : ctx_id)
  : validator :=
  match self with
  | Validator None body => Validator (Some context) body
  | Validator (Some c) body => Validator (Some c) body
  end.


(** *** Constructors *)

(** the built-in subclasses of [Type] *)
Definition Boolean : vbody := Type_ (Some "boolean") [CBool] [].
Definition Integer : vbody := Type_ (Some "integer") [CIntegral] [CBool].
Definition Number : vbody := Type_ (Some "number") [CNumber] [CBool].

(** [Object.__init__] *)
Fixpoint Object_init_loop (properties : list (property * pyobj))
  (all : list (pyvalue * pyobj)) (optional_defaults : list (pyvalue * pydefault))
  (required_keys : list pyvalue)
  : list (pyvalue * pyobj) * list (pyvalue * pydefault) * list pyvalue :=
  match properties with
  | [] => (all, optional_defaults, required_keys)
  | (Optional key default, schema) :: rest =>
      let optional_defaults' :=
        match default with
        | Some d => assign key d optional_defaults
        | None => optional_defaults
        end in
      Object_init_loop rest (all ++ [(key, schema)]) optional_defaults'
                       required_keys
  | (Key p, schema) :: rest =>
      Object_init_loop rest (all ++ [(p, schema)]) optional_defaults
                       (set_add p required_keys)
  end.

Definition Object_init (properties : list (property * pyobj))
  (additional : pyobj) (ignore_optional_errors : bool) : validator :=
  let '(all, optional_defaults, required_keys) :=
    Object_init_loop properties [] [] [] in
  Validator None
    (Object (Some all) optional_defaults required_keys (map fst all)
            additional ignore_optional_errors None).

(* ================================================================== *)
(** ** Validation contexts *)

(** [TypeNames._type_names] *)
Definition TypeNames := list (pyclass * string).

Fixpoint type_names_get (names : TypeNames) (type : pyclass) : option string :=
  match names with
  | [] => None
  | (t, n) :: rest => if pyclass_eqb type t then Some n
                      else type_names_get rest type
  end.

(** [TypeNames.set_name_for_types] *)
Fixpoint type_names_set (names : TypeNames) (type : pyclass) (name : string)
  : TypeNames :=
  match names with
  | [] => [(type, name)]
  | (t, n) :: rest => if pyclass_eqb type t then (t, name) :: rest
                      else (t, n) :: type_names_set rest type name
  end.

Definition set_name_for_types (names : TypeNames) (name : string)
  (types : list pyclass) : TypeNames :=
  fold_left (fun acc t => type_names_set acc t name) types names.

(** [TypeNames.get_type_name] *)
Definition get_type_name (names : TypeNames) (type : pyclass) : string :=
  str_or (type_names_get names type) (class_name type).

(** [TypeNames.format_types]; [names[-1]] of an empty tuple raises. *)
Definition format_types (type_names : TypeNames) (types : list pyclass)
  : outcome string :=
  let names := map (get_type_name type_names) types in
  match rev names with
  | [] => Raise (IndexError "list index out of range")
  | s :: [] => Ok s
  | s :: front => Ok (join ", " (rev front) +:+ " or " +:+ s)
  end.

(** [ValidationContext]: the registry of named validators holds any object
    under a name (a data value); the factories are in the order of the dict,
    that is, of their registration. *)
Record ValidationContext : Type := mkValidationContext {
  type_names : TypeNames;
  named_validators : list (pyvalue * pyobj);
  validators_factories : list (string * (pyobj -> option pyobj));
  repr : pyvalue -> string
}.

(** The context objects, by identifier. *)
Definition store := ctx_id -> ValidationContext.

Definition store_set (h : store) (c : ctx_id) (context : ValidationContext)
  : store :=
  fun c' => if Nat.eqb c' c then context else h c'.

(** [self.val_context.<attribute>], which raises when [val_context] is
    [None]. *)
Definition the_context (h : store) (c : option ctx_id) (attribute : string)
  : outcome ValidationContext :=
  match c with
  | Some c => Ok (h c)
  | None => Raise (AttributeError
                     ("'NoneType' object has no attribute '" +:+ attribute +:+ "'"))
  end.

(* ================================================================== *)
(** ** Rendering *)

(** [ValidationError.to_text].  After the [insert] or the assignment of
    [path_items[0]], the list is a name followed by the items that the loop
    turns into indexers. *)
Fixpoint to_text_indexers (h : store) (c : option ctx_id)
  (items : list pyvalue) : outcome (list string) :=
  match items with
  | [] => Ok []
  | item :: rest =>
      context <- the_context h c "repr" ;;
      rest' <- to_text_indexers h c rest ;;
      Ok (("[" +:+ repr context item +:+ "]") :: rest')
  end.

Definition to_text (h : store) (self : ValidationError) : outcome string :=
  message <-
    match value self with
    | Some v =>
        context <- the_context h (val_context self) "repr" ;;
        Ok ("Invalid value " +:+ repr context v +:+ " (" +:+
            get_type_name (type_names context) (class_of v) +:+ "): " +:+
            msg self)
    | None => Ok (msg self)
    end ;;
  match rev (error_path_items self) with
  | [] => Ok message
  | first :: rest =>
      let '(name, indexed) :=
        match first with
        | PStr s => (s, rest)
        | _ => ("value", first :: rest)
        end in
      indexers <- to_text_indexers h (val_context self) indexed ;;
      Ok (message +:+ " (at " +:+ join "" (name :: indexers) +:+ ")")
  end.

Section MapM.
Context {A B : Type}.
Variable f : A -> outcome B.

(** [list(imap(f, l))], stopping at the first exception *)
Fixpoint mapM (l : list A) : outcome (list B) :=
  match l with
  | [] => Ok []
  | x :: rest => y <- f x ;; rest' <- mapM rest ;; Ok (y :: rest')
  end.
End MapM.

(** The property [humanized_name] of each class. *)
Fixpoint humanized_name (h : store) (self : validator) {struct self}
  : outcome string :=
  match self with
  | Validator ctx body =>
      let of_types name accept_types :=
        match name with
        | Some "" | None =>
            context <- the_context h ctx "type_names" ;;
            format_types (type_names context) accept_types
        | Some n => Ok n
        end in
      match body with
      | Type_ name accept_types _ => of_types name accept_types
      | String_ _ _ => Ok "string"
      | NoneValue _ =>
          context <- the_context h ctx "type_names" ;;
          Ok (get_type_name (type_names context) CNoneType)
      | AnyOf _ validators =>
          names <- mapM (humanized_name h) validators ;; Ok (join " or " names)
      | AllOf _ validators =>
          names <- mapM (humanized_name h) validators ;; Ok (join " and " names)
      | ChainOf _ validators =>
          names <- mapM (humanized_name h) validators ;;
          Ok (join " chained to " names)
      | Nullable _ _ inner =>
          match inner with
          | Some v => humanized_name h v
          | None => Raise (AttributeError
                      "'NoneType' object has no attribute 'humanized_name'")
          end
      | Condition predicate_name _ _ => Ok predicate_name
      | AdaptBy _ _ => Ok "AdaptBy"
      | AdaptTo _ _ _ _ => Ok "AdaptTo"
      | HomogeneousSequence _ _ _ _ => of_types None [CSequence]
      | HeterogeneousSequence _ _ => of_types None [CSequence]
      | Mapping _ _ _ => of_types None [CMapping]
      | Object _ _ _ _ _ _ _ => of_types None [CMapping]
      | Custom cls_name name _ => Ok (str_or name cls_name)
      end
  end.

(** [Validator.error]: [raise ValidationError(self.val_context,
    "must be <humanized name>", value)] *)
Definition error {A : Type} (h : store) (self : validator) (value : pyvalue)
  : outcome A :=
  name <- humanized_name h self ;;
  Invalid (new_error (bound_context self) ("must be " +:+ name) value).

(* ================================================================== *)
(** ** Validation *)

(** [len(value)] *)
Definition py_len (value : pyvalue) : Z :=
  match value with
  | PStr s => Z.of_nat (String.length s)
  | PList l | PTuple l => Z.of_nat (length l)
  | PDict d => Z.of_nat (length d)
  | _ => 0
  end.

(** the items of a sequence, and [value.__class__(items)] *)
Definition seq_items (value : pyvalue) : list pyvalue :=
  match value with
  | PList l | PTuple l => l
  | _ => []
  end.

Definition seq_rebuild (value : pyvalue) (items : list pyvalue) : pyvalue :=
  match value with
  | PTuple _ => PTuple items
  | _ => PList items
  end.

Definition dict_items (value : pyvalue) : dict :=
  match value with
  | PDict d => d
  | _ => []
  end.

(** [Type.validate], also reached through [super().validate(value)] *)
Definition Type_validate (h : store) (self : validator)
  (accept_types reject_types : list pyclass) (value : pyvalue)
  : outcome pyvalue :=
  if negb (isinstance value accept_types) || isinstance value reject_types
  then error h self value
  else Ok value.

Definition String_validate (h : store) (self : validator)
  (min_length max_length : option Z) (value : pyvalue) : outcome pyvalue :=
  Type_validate h self [CStr] [] value ;;
  match min_length with
  | Some m =>
      if (py_len value <? m)%Z
      then Invalid (new_error (bound_context self)
             ("must be at least " +:+ string_of_Z m +:+ " characters long") value)
      else Ok value
  | None => Ok value
  end ;;
  match max_length with
  | Some m =>
      if (py_len value >? m)%Z
      then Invalid (new_error (bound_context self)
             ("must be at most " +:+ string_of_Z m +:+ " characters long") value)
      else Ok value
  | None => Ok value
  end.

Definition NoneValue_validate (h : store) (self : validator)
  (default : pydefault) (value : pyvalue) : outcome pyvalue :=
  match value with
  | PNone => apply_default default
  | _ => error h self value
  end.

(** [Condition.validate]; [traps] tells which exception classes are trapped
    ([ValidationError] is a [ValueError]). *)
Definition Condition_validate (self : validator) (predicate_name : string)
  (predicate : pyvalue -> outcome bool) (traps : string -> bool)
  (value : pyvalue) : outcome pyvalue :=
  is_valid <-
    match predicate value with
    | Ok b => Ok b
    | Invalid ex => if traps "ValidationError" then Ok false else Invalid ex
    | Raise x => if traps (exn_class x) then Ok false else Raise x
    end ;;
  if negb is_valid
  then Invalid (new_error (bound_context self)
                  ("must satisfy predicate " +:+ predicate_name) value)
  else Ok value.

Definition AdaptBy_validate (h : store) (self : validator)
  (adaptor : pyvalue -> outcome pyvalue) (traps : string -> bool)
  (value : pyvalue) : outcome pyvalue :=
  match adaptor value with
  | Ok adapted => Ok adapted
  | Invalid ex =>
      if traps "ValidationError"
      then text <- to_text h ex ;;
           Invalid (new_error (bound_context self) text value)
      else Invalid ex
  | Raise x =>
      if traps (exn_class x)
      then Invalid (new_error (bound_context self) (exn_message x) value)
      else Raise x
  end.

Definition AdaptTo_validate (h : store) (self : validator)
  (target_cls : pyclass) (adaptor : pyvalue -> outcome pyvalue)
  (traps : string -> bool) (exact : bool) (value : pyvalue)
  : outcome pyvalue :=
  if isinstance value [target_cls]
     && (negb exact || pyclass_eqb (class_of value) target_cls)
  then Ok value
  else AdaptBy_validate h self adaptor traps value.

Section Composite.
(** [validator.validate] of the component validators *)
Variable validate : validator -> pyvalue -> outcome pyvalue.
Variable h : store.
Variable self : validator.

(** [AnyOf.validate]: the loop, [messages] in the order of the appends *)
Fixpoint AnyOf_loop (validators : list validator) (messages : list string)
  (value : pyvalue) : outcome pyvalue :=
  match validators with
  | [] => Invalid (new_error (bound_context self) (join " or " messages) value)
  | validator :: rest =>
      match validate validator value with
      | Ok adapted => Ok adapted
      | Invalid ex => AnyOf_loop rest (messages ++ [msg ex]) value
      | Raise x => Raise x
      end
  end.

Definition AnyOf_validate (validators : list validator) (value : pyvalue)
  : outcome pyvalue :=
  AnyOf_loop validators [] value.

(** [AllOf.validate] *)
Fixpoint AllOf_loop (validators : list validator) (result value : pyvalue)
  : outcome pyvalue :=
  match validators with
  | [] => Ok result
  | validator :: rest =>
      result' <- validate validator value ;;
      AllOf_loop rest result' value
  end.

Definition AllOf_validate (validators : list validator) (value : pyvalue)
  : outcome pyvalue :=
  AllOf_loop validators value value.

(** [ChainOf.validate] *)
Fixpoint ChainOf_validate (validators : list validator) (value : pyvalue)
  : outcome pyvalue :=
  match validators with
  | [] => Ok value
  | validator :: rest =>
      value' <- validate validator value ;;
      ChainOf_validate rest value'
  end.

Definition Nullable_validate (inner : option validator) (value : pyvalue)
  : outcome pyvalue :=
  match inner with
  | Some v => validate v value
  | None => Raise (AttributeError
                     "'NoneType' object has no attribute 'validate'")
  end.

(** [try: yield validate(item) except ValidationError as ex:
     raise ex.add_error_path_item(i)] *)
Definition validate_at (validator : validator) (item path_item : pyvalue)
  : outcome pyvalue :=
  match validate validator item with
  | Ok adapted => Ok adapted
  | Invalid ex => Invalid (add_error_path_item ex path_item)
  | Raise x => Raise x
  end.

(** [HomogeneousSequence._iter_validated_items] *)
Fixpoint Homogeneous_iter (validator : validator) (i : Z)
  (items : list pyvalue) : outcome (list pyvalue) :=
  match items with
  | [] => Ok []
  | item :: rest =>
      adapted <- validate_at validator item (PInt i) ;;
      rest' <- Homogeneous_iter validator (i + 1)%Z rest ;;
      Ok (adapted :: rest')
  end.

Definition HomogeneousSequence_validate (min_length max_length : option Z)
  (item_validator : option validator) (value : pyvalue) : outcome pyvalue :=
  Type_validate h self [CSequence] [CStr] value ;;
  match min_length with
  | Some m =>
      if (py_len value <? m)%Z
      then Invalid (new_error (bound_context self)
             ("must contain at least " +:+ string_of_Z m +:+ " elements") value)
      else Ok value
  | None => Ok value
  end ;;
  match max_length with
  | Some m =>
      if (py_len value >? m)%Z
      then Invalid (new_error (bound_context self)
             ("must contain at most " +:+ string_of_Z m +:+ " elements") value)
      else Ok value
  | None => Ok value
  end ;;
  match item_validator with
  | None => Ok value
  | Some validator =>
      items <- Homogeneous_iter validator 0%Z (seq_items value) ;;
      Ok (seq_rebuild value items)
  end.

(** [HeterogeneousSequence._iter_validated_items], over
    [izip(self._item_validators, value)] *)
Fixpoint Heterogeneous_iter (validators : list validator) (i : Z)
  (items : list pyvalue) : outcome (list pyvalue) :=
  match validators, items with
  | validator :: validators', item :: rest =>
      adapted <- validate_at validator item (PInt i) ;;
      rest' <- Heterogeneous_iter validators' (i + 1)%Z rest ;;
      Ok (adapted :: rest')
  | _, _ => Ok []
  end.

Definition HeterogeneousSequence_validate (item_validators : list validator)
  (value : pyvalue) : outcome pyvalue :=
  Type_validate h self [CSequence] [CStr] value ;;
  if negb (py_len value =? Z.of_nat (length item_validators))%Z
  then Invalid (new_error (bound_context self)
         (string_of_Z (Z.of_nat (length item_validators)) +:+
          " items expected, " +:+ string_of_Z (py_len value) +:+ " found")
         value)
  else
    items <- Heterogeneous_iter item_validators 0%Z (seq_items value) ;;
    Ok (seq_rebuild value items).

(** [Mapping._iter_validated_items] *)
Fixpoint Mapping_iter (key_validator value_validator : option validator)
  (items : dict) : outcome (list (pyvalue * pyvalue)) :=
  match items with
  | [] => Ok []
  | (k, v) :: rest =>
      v' <- match value_validator with
            | Some validator => validate_at validator v k
            | None => Ok v
            end ;;
      k' <- match key_validator with
            | Some validator => validate validator k
            | None => Ok k
            end ;;
      rest' <- Mapping_iter key_validator value_validator rest ;;
      Ok ((k', v') :: rest')
  end.

Definition Mapping_validate (key_validator value_validator : option validator)
  (value : pyvalue) : outcome pyvalue :=
  Type_validate h self [CMapping] [] value ;;
  pairs <- Mapping_iter key_validator value_validator (dict_items value) ;;
  Ok (PDict (dict_of_pairs pairs)).
End Composite.

(** [self._required_keys.difference(value)] *)
Definition missing_required (required_keys : list pyvalue) (value : dict)
  : list pyvalue :=
  set_difference required_keys (dict_keys value).

(** [[k for k in value if k not in all_keys]] *)
Definition additional_properties (all_keys : list pyvalue) (value : dict)
  : list pyvalue :=
  filter (fun k => negb (py_in k all_keys)) (dict_keys value).

Section ObjectValidate.
Variable validate : validator -> pyvalue -> outcome pyvalue.
Variable h : store.
Variable self : validator.

(** [Object.validate]: the loop over [self._named_validators] *)
Fixpoint Object_properties (optional_defaults : list (pyvalue * pydefault))
  (required_keys : list pyvalue) (ignore_optional_errors : bool)
  (named_validators : list (pyvalue * validator))
  (value result : dict) : outcome dict :=
  match named_validators with
  | [] => Ok result
  | (name, validator) :: rest =>
      let continue := Object_properties optional_defaults required_keys
                        ignore_optional_errors rest value in
      match lookup name value with
      | Some item =>
          match validate validator item with
          | Ok adapted => continue (assign name adapted result)
          | Invalid ex =>
              if negb ignore_optional_errors || py_in name required_keys
              then Invalid (add_error_path_item ex name)
              else match delete name result with
                   | Some result' => continue result'
                   | None => Raise (KeyError "")
                   end
          | Raise x => Raise x
          end
      | None =>
          match lookup name optional_defaults with
          | Some default =>
              item <- apply_default default ;;
              continue (assign name item result)
          | None => continue result
          end
      end
  end.

(** [for name in additional_properties: del result[name]] *)
Fixpoint Object_remove (additional_properties : list pyvalue) (result : dict)
  : outcome dict :=
  match additional_properties with
  | [] => Ok result
  | name :: rest =>
      match delete name result with
      | Some result' => Object_remove rest result'
      | None => Raise (KeyError "")
      end
  end.

(** the loop that validates the additional properties *)
Fixpoint Object_additional (additional : validator)
  (additional_properties : list pyvalue) (value result : dict)
  : outcome dict :=
  match additional_properties with
  | [] => Ok result
  | name :: rest =>
      match lookup name value with
      | Some item =>
          adapted <- validate_at validate additional item name ;;
          Object_additional additional rest value (assign name adapted result)
      | None => Raise (KeyError "")
      end
  end.

(** [Object.validate] from [if self._additional is not True:] on *)
Definition Object_handle_additional (all_keys : list pyvalue)
  (additional : pyobj) (value result : dict) : outcome dict :=
  match additional with
  | OBool true => Ok result
  | _ =>
      let additional_properties := additional_properties all_keys value in
      match additional_properties with
      | [] => Ok result
      | _ =>
          match additional with
          | OBool false =>
              context <- the_context h (bound_context self) "repr" ;;
              Invalid (new_error (bound_context self)
                ("unexpected properties: " +:+
                 repr context (PList additional_properties))
                (PDict value))
          | REMOVE => Object_remove additional_properties result
          | OValidator validator =>
              Object_additional validator additional_properties value result
          | _ => Raise (AttributeError "object has no attribute 'validate'")
          end
      end
  end.

Definition Object_validate (optional_defaults : list (pyvalue * pydefault))
  (required_keys all_keys : list pyvalue) (additional : pyobj)
  (ignore_optional_errors : bool)
  (named_validators : option (list (pyvalue * validator)))
  (value : pyvalue) : outcome pyvalue :=
  Type_validate h self [CMapping] [] value ;;
  let value := dict_items value in
  let missing_required := missing_required required_keys value in
  match missing_required with
  | _ :: _ =>
      context <- the_context h (bound_context self) "repr" ;;
      Invalid (new_error (bound_context self)
        ("missing required properties: [" +:+
         join ", " (map (repr context) missing_required) +:+ "]")
        (PDict value))
  | [] =>
      match named_validators with
      | None => Raise (TypeError "'NoneType' object is not iterable")
      | Some named_validators =>
          result <- Object_properties optional_defaults required_keys
                      ignore_optional_errors named_validators value value ;;
          result <- Object_handle_additional all_keys additional value result ;;
          Ok (PDict result)
      end
  end.
End ObjectValidate.

(** [validator.validate(value)], dispatched on the class of [self]. *)
Fixpoint validate (h : store) (self : validator) (value : pyvalue)
  {struct self} : outcome pyvalue :=
  match self with
  | Validator ctx body =>
      match body with
      | Type_ _ accept_types reject_types =>
          Type_validate h self accept_types reject_types value
      | String_ min_length max_length =>
          String_validate h self min_length max_length value
      | NoneValue default => NoneValue_validate h self default value
      | AnyOf _ validators =>
          AnyOf_validate (validate h) self validators value
      | AllOf _ validators => AllOf_validate (validate h) validators value
      | ChainOf _ validators => ChainOf_validate (validate h) validators value
      | Nullable _ _ inner => Nullable_validate (validate h) inner value
      | Condition predicate_name predicate traps =>
          Condition_validate self predicate_name predicate traps value
      | AdaptBy adaptor traps => AdaptBy_validate h self adaptor traps value
      | AdaptTo target_cls adaptor traps exact =>
          AdaptTo_validate h self target_cls adaptor traps exact value
      | HomogeneousSequence _ min_length max_length item_validator =>
          HomogeneousSequence_validate (validate h) h self min_length
            max_length item_validator value
      | HeterogeneousSequence _ item_validators =>
          HeterogeneousSequence_validate (validate h) h self item_validators
            value
      | Mapping _ key_validator value_validator =>
          Mapping_validate (validate h) h self key_validator value_validator
            value
      | Object _ optional_defaults required_keys all_keys additional
               ignore_optional_errors named_validators =>
          Object_validate (validate h) h self optional_defaults required_keys
            all_keys additional ignore_optional_errors named_validators value
      | Custom _ _ validate_fn => validate_fn ctx value
      end
  end.

(** [Validator.is_valid] *)
Definition is_valid (h : store) (self : validator) (value : pyvalue)
  : outcome bool :=
  match validate h self value with
  | Ok _ => Ok true
  | Invalid _ => Ok false
  | Raise x => Raise x
  end.

(* ================================================================== *)
(** ** Schema resolution *)

(** What [parse] does: it returns (and leaves the contexts in a new state),
    raises [SchemaError] for an object, raises something else, or needs more
    than the given number of nested calls. *)
Inductive presult (A : Type) : Type :=
| Parsed (a : A) (h : store)
| SchemaError (obj : pyobj)
| Failed (x : pyexn)
| OutOfFuel.
Arguments Parsed {A} a h.
Arguments SchemaError {A} obj.
Arguments Failed {A} x.
Arguments OutOfFuel {A}.

Definition parser (A : Type) : Type := store -> presult A.

Definition pret {A : Type} (a : A) : parser A := fun h => Parsed a h.

Definition pbind {A B : Type} (m : parser A) (k : A -> parser B) : parser B :=
  fun h =>
    match m h with
    | Parsed a h' => k a h'
    | SchemaError obj => SchemaError obj
    | Failed x => Failed x
    | OutOfFuel => OutOfFuel
    end.

Notation "x <~ m ;; k" := (pbind m (fun x => k))
  (at level 61, m at next level, right associativity).

Definition pfail {A : Type} (x : pyexn) : parser A := fun _ => Failed x.

(** [iteritems(d)] (Python 3): [iter(d.items())], the items in the order of
    the dict. *)
Definition iteritems {K V : Type} (d : list (K * V)) : list (K * V) := d.

(** The key under which an object is looked up in a dict of names: [None]
    when the object is unhashable ([TypeError]) or is no data value, which no
    name equals ([KeyError]). *)
Fixpoint as_key (obj : pyobj) : option pyvalue :=
  match obj with
  | ONone => Some PNone
  | OBool b => Some (PBool b)
  | OInt n => Some (PInt n)
  | OStr s => Some (PStr s)
  | OTuple items =>
      option_map PTuple
        ((fix keys (items : list pyobj) : option (list pyvalue) :=
            match items with
            | [] => Some []
            | item :: rest =>
                match as_key item, keys rest with
                | Some k, Some ks => Some (k :: ks)
                | _, _ => None
                end
            end) items)
  | _ => None
  end.

(** [self.named_validators[obj]]; [None] for [KeyError] and [TypeError] *)
Definition named_lookup (context : ValidationContext) (obj : pyobj)
  : option pyobj :=
  match as_key obj with
  | Some k => lookup k (named_validators context)
  | None => None
  end.

(** the loop of [_get_validator] over the factories *)
Fixpoint factories_loop (factories : list (string * (pyobj -> option pyobj)))
  (obj : pyobj) : option pyobj :=
  match factories with
  | [] => None
  | (_, factory) :: rest =>
      match factory obj with
      | Some validator => Some validator
      | None => factories_loop rest obj
      end
  end.

(** [ValidationContext._get_validator]; the result [None] is Python's. *)
Definition _get_validator (self : ctx_id) (obj : pyobj)
  : parser (option pyobj) :=
  fun h =>
    match named_lookup (h self) obj with
    | None =>
        Parsed (factories_loop (iteritems (validators_factories (h self))) obj) h
    | Some (OValidatorClass _ new) =>
        match new, as_key obj with
        | Some validator, Some k =>
            let context := h self in
            Parsed (Some (OValidator validator))
              (store_set h self
                 (mkValidationContext (type_names context)
                    (assign k (OValidator validator) (named_validators context))
                    (validators_factories context) (repr context)))
        | _, _ => Failed (TypeError "missing required positional argument")
        end
    | Some validator => Parsed (Some validator) h
    end.

(** [ValidationContext.register] *)
Definition register (self : ctx_id) (name : pyvalue) (validator : pyobj)
  : parser unit :=
  fun h =>
    match validator with
    | OValidator _ =>
        let context := h self in
        Parsed tt
          (store_set h self
             (mkValidationContext (type_names context)
                (assign name validator (named_validators context))
                (validators_factories context) (repr context)))
    | _ => Failed (mkExn "ValidatorTypeError" "Validator instance expected")
    end.

(** The name under which [ValidationContext.parse] finds the validator it
    returns for [schema], if it finds it in [named_validators]: what [parse]
    returns is then the registered object itself (for a registered class, the
    instance that [_get_validator] has stored under the name), so that a
    later change of the object is a change of what the name holds. *)
Definition registered_name (context : ValidationContext) (schema : pyobj)
  : option pyvalue :=
  match schema with
  | OValidator _ | OValidatorClass _ _ => None
  | _ =>
      match named_lookup context schema with
      | Some _ => as_key schema
      | None => None
      end
  end.

(** A change in place of the validator that the context [self] holds under
    [name]: the new state of the object is what the name holds. *)
Definition update_registered (self : ctx_id) (name : option pyvalue)
  (validator : validator) : parser unit :=
  fun h =>
    match name with
    | Some k =>
        let context := h self in
        Parsed tt
          (store_set h self
             (mkValidationContext (type_names context)
                (assign k (OValidator validator) (named_validators context))
                (validators_factories context) (repr context)))
    | None => Parsed tt h
    end.

Section ParseHooks.
(** [ValidationContext.parse] of the context with the given identifier *)
Variable parse : ctx_id -> pyobj -> parser validator.

(** [self.val_context.parse(schema)] *)
Definition val_context_parse (self : validator) (schema : pyobj)
  : parser validator :=
  match bound_context self with
  | Some c => parse c schema
  | None => pfail (AttributeError
                     "'NoneType' object has no attribute 'parse'")
  end.

(** [list(imap(self.val_context.parse, schemas))] *)
Fixpoint parse_all (self : validator) (schemas : list pyobj)
  : parser (list validator) :=
  match schemas with
  | [] => pret []
  | schema :: rest =>
      v <~ val_context_parse self schema ;;
      vs <~ parse_all self rest ;;
      pret (v :: vs)
  end.

Definition parse_optional (self : validator) (schema : option pyobj)
  : parser (option validator) :=
  match schema with
  | Some s => v <~ val_context_parse self s ;; pret (Some v)
  | None => pret None
  end.

(** the name under which [self.val_context.parse(schema)] is about to find
    its result, if it is found under a name *)
Definition val_context_registered_name (self : validator) (schema : pyobj)
  : parser (option pyvalue) :=
  fun h =>
    Parsed match bound_context self with
           | Some c => registered_name (h c) schema
           | None => None
           end h.

(** [validator._validators.append(none_validator)] on the object that
    [self.val_context.parse] returned: a change in place, which the context
    sees when the object is the one it holds under [name]. *)
Definition append_in_place (self : validator) (name : option pyvalue)
  (extended : validator) : parser unit :=
  match bound_context self with
  | Some c => update_registered c name extended
  | None => pret tt
  end.

(** [Nullable.parse] *)
Definition Nullable_parse (self : validator) (schema : option pyobj)
  (default : pydefault) (inner : option validator) : parser validator :=
  let ctx := bound_context self in
  match schema with
  | Some schema =>
      name <~ val_context_registered_name self schema ;;
      validator <~ val_context_parse self schema ;;
      none_validator <~
        val_context_parse self (OValidator (Validator None (NoneValue default))) ;;
      match validator with
      | Validator actx (AnyOf schemas validators) =>
          let extended :=
            Validator actx (AnyOf schemas (validators ++ [none_validator])) in
          appended <~ append_in_place self name extended ;;
          pret (Validator ctx (Nullable None default (Some extended)))
      | _ =>
          any_of <~
            val_context_parse self
              (OValidator
                 (Validator None
                    (AnyOf (Some [OValidator validator;
                                  OValidator none_validator]) []))) ;;
          pret (Validator ctx (Nullable None default (Some any_of)))
      end
  | None => pret self
  end.

(** [Object.parse]: the list comprehension over [self._all] *)
Fixpoint Object_parse_all (self : validator) (all : list (pyvalue * pyobj))
  : parser (list (pyvalue * validator)) :=
  match all with
  | [] => pret []
  | (name, schema) :: rest =>
      v <~ val_context_parse self schema ;;
      vs <~ Object_parse_all self rest ;;
      pret ((name, v) :: vs)
  end.

(** [validator.parse()], dispatched on the class of [self] *)
Definition parse_hook (self : validator) : parser validator :=
  match self with
  | Validator ctx body =>
      match body with
      | AnyOf (Some schemas) _ =>
          vs <~ parse_all self schemas ;; pret (Validator ctx (AnyOf None vs))
      | AllOf (Some schemas) _ =>
          vs <~ parse_all self schemas ;; pret (Validator ctx (AllOf None vs))
      | ChainOf (Some schemas) _ =>
          vs <~ parse_all self schemas ;; pret (Validator ctx (ChainOf None vs))
      | Nullable schema default inner =>
          Nullable_parse self schema default inner
      | HomogeneousSequence (Some (Some schema)) min_length max_length _ =>
          v <~ val_context_parse self schema ;;
          pret (Validator ctx
                  (HomogeneousSequence None min_length max_length (Some v)))
      | HeterogeneousSequence (Some schemas) _ =>
          vs <~ parse_all self schemas ;;
          pret (Validator ctx (HeterogeneousSequence None vs))
      | Mapping (Some (key_schema, value_schema)) key_validator
                value_validator =>
          kv <~ match key_schema with
                | Some s => v <~ val_context_parse self s ;; pret (Some v)
                | None => pret key_validator
                end ;;
          vv <~ match value_schema with
                | Some s => v <~ val_context_parse self s ;; pret (Some v)
                | None => pret value_validator
                end ;;
          pret (Validator ctx (Mapping None kv vv))
      | Object (Some all) optional_defaults required_keys all_keys additional
               ignore_optional_errors _ =>
          additional' <~
            match additional with
            | OBool _ | REMOVE => pret additional
            | _ => v <~ val_context_parse self additional ;;
                   pret (OValidator v)
            end ;;
          named <~ Object_parse_all self all ;;
          pret (Validator ctx
                  (Object None optional_defaults required_keys all_keys
                     additional' ignore_optional_errors (Some named)))
      | _ => pret self
      end
  end.
End ParseHooks.

(** [ValidationContext.parse]; [fuel] bounds the depth of the nested calls. *)
Fixpoint parse (fuel : nat) (self : ctx_id) (obj : pyobj) {struct fuel}
  : parser validator :=
  match fuel with
  | O => fun _ => OutOfFuel
  | S fuel' =>
      validator <~
        match obj with
        | OValidator v => pret (Some obj)
        | OValidatorClass _ new =>
            match new with
            | Some v => pret (Some (OValidator v))
            | None => pfail (TypeError "missing required positional argument")
            end
        | _ => _get_validator self obj
        end ;;
      match validator with
      | Some (OValidator v) =>
          parse_hook (parse fuel') (set_validation_context v self)
      | _ => fun _ => SchemaError obj
      end
  end.

(* ================================================================== *)
(** ** The default context *)

(** [None] as an argument that is a schema or nothing *)
Definition not_None (obj : pyobj) : option pyobj :=
  match obj with ONone => None | _ => Some obj end.

Definition homogeneous_sequence_factory (obj : pyobj) : option pyobj :=
  match obj with
  | OList [] =>
      Some (OValidator
              (Validator None (HomogeneousSequence (Some None) None None None)))
  | OList [schema] =>
      Some (OValidator
              (Validator None
                 (HomogeneousSequence (Some (not_None schema)) None None None)))
  | _ => None
  end.

Definition heterogeneous_sequence_factory (obj : pyobj) : option pyobj :=
  match obj with
  | OTuple items =>
      Some (OValidator (Validator None (HeterogeneousSequence (Some items) [])))
  | _ => None
  end.

(** [ObjectFactory(additional_properties,
    ignore_optional_property_errors).__call__] *)
Definition ObjectFactory (additional_properties : pyobj)
  (ignore_optional_property_errors : bool) (obj : pyobj) : option pyobj :=
  match obj with
  | ODict items =>
      Some (OValidator (Object_init items additional_properties
                          ignore_optional_property_errors))
  | _ => None
  end.

Definition type_factory (obj : pyobj) : option pyobj :=
  match obj with
  | OClass c => Some (OValidator (Validator None (Type_ None [c] [])))
  | OValidatorClass cls_name _ =>
      Some (OValidator (Validator None (Type_ None [CUser cls_name] [])))
  | _ => None
  end.

(** No object of the embedding is a compiled regular expression. *)
Definition pattern_factory (obj : pyobj) : option pyobj := None.

Definition condition_factory (obj : pyobj) : option pyobj :=
  match obj with
  | OCallable name call =>
      Some (OValidator (Validator None (Condition name call (fun _ => true))))
  | _ => None
  end.

(** [make_default_validation_context()]; [compatible_repr] is the
    [reprlib]-based representation function of [compat.py]. *)
Definition make_default_validation_context
  (compatible_repr : pyvalue -> string) : ValidationContext :=
  let cls cls_name body :=
    OValidatorClass cls_name (Some (Validator None body)) in
  mkValidationContext
    []
    [ (PStr "boolean", cls "Boolean" Boolean);
      (PStr "string", cls "String" (String_ None None));
      (PStr "time", cls "Time" (Type_ (Some "time") [CUser "time"] []));
      (PStr "date", cls "Date" (Type_ (Some "date") [CUser "date"] []));
      (PStr "integer", cls "Integer" Integer);
      (PStr "number", cls "Number" Number);
      (PStr "datetime",
       cls "Datetime" (Type_ (Some "datetime") [CUser "datetime"] [])) ]
    [ ("HomogeneousSequence", homogeneous_sequence_factory);
      ("Object", ObjectFactory (OBool true) false);
      ("HeterogeneousSequence", heterogeneous_sequence_factory);
      ("Type", type_factory);
      ("Pattern", pattern_factory);
      ("Condition", condition_factory) ]
    compatible_repr.

(** Python's [repr] on values whose strings need no escape; [reprlib]
    returns the same text below its size limits. *)
Fixpoint plain_repr (v : pyvalue) : string :=
  match v with
  | PNone => "None"
  | PBool true => "True"
  | PBool false => "False"
  | PInt n => string_of_Z n
  | PStr s => "'" +:+ s +:+ "'"
  | PList items => "[" +:+ join ", " (map plain_repr items) +:+ "]"
  | PTuple [item] => "(" +:+ plain_repr item +:+ ",)"
  | PTuple items => "(" +:+ join ", " (map plain_repr items) +:+ ")"
  | PDict items =>
      "{" +:+
      join ", "
        (map (fun kv => plain_repr (fst kv) +:+ ": " +:+ plain_repr (snd kv))
             items) +:+ "}"
  end.

(** A store in which every context is a fresh default context. *)
Definition default_store : store :=
  fun _ => make_default_validation_context plain_repr.

(* ================================================================== *)
(** ** Vocabulary of the statements *)

(** The text before the path: ["Invalid value <repr> (<type name>): <msg>"]
    with a value attached, the message alone without. *)
Definition rendered_message (context : ValidationContext)
  (self : ValidationError) : string :=
  match value self with
  | Some v =>
      "Invalid value " +:+ repr context v +:+ " (" +:+
      get_type_name (type_names context) (class_of v) +:+ "): " +:+ msg self
  | None => msg self
  end.

(** A path segment as an indexer: ["[<repr(segment)>]"] *)
Definition indexer (context : ValidationContext) (item : pyvalue) : string :=
  "[" +:+ repr context item +:+ "]".

(** A path segment as a plain name: the string itself, or the text of a
    segment that is no string. *)
Definition plain_name (context : ValidationContext) (item : pyvalue) : string :=
  match item with
  | PStr s => s
  | _ => repr context item
  end.

(** The rendering in which the outermost segment is always a plain name and
    every later one an indexer. *)
Definition to_text_first_plain (context : ValidationContext)
  (self : ValidationError) : string :=
  rendered_message context self +:+
  match rev (error_path_items self) with
  | [] => ""
  | outer :: inner =>
      " (at " +:+ plain_name context outer +:+
      join "" (map (indexer context) inner) +:+ ")"
  end.

(** Hashable values: what a dict key or a set member can be. *)
Fixpoint hashable (v : pyvalue) : bool :=
  match v with
  | PNone | PBool _ | PInt _ | PStr _ => true
  | PTuple items =>
      (fix all (items : list pyvalue) : bool :=
         match items with
         | [] => true
         | item :: rest => hashable item && all rest
         end) items
  | PList _ | PDict _ => false
  end.

(** No two keys are equal. *)
Fixpoint keys_distinct (keys : list pyvalue) : bool :=
  match keys with
  | [] => true
  | k :: rest => negb (py_in k rest) && keys_distinct rest
  end.

(** The invariant of a Python dict: hashable keys, no key twice. *)
Definition well_formed_dict (d : dict) : bool :=
  forallb hashable (dict_keys d) && keys_distinct (dict_keys d).

(** A validator as [ValidationContext.parse] returns it: bound to a context,
    and with nothing left for its [parse] method to do. *)
Definition settled (v : validator) : bool :=
  match v with
  | Validator None _ => false
  | Validator (Some _) body =>
      match body with
      | AnyOf (Some _) _ | AllOf (Some _) _ | ChainOf (Some _) _
      | Nullable (Some _) _ _
      | HomogeneousSequence (Some (Some _)) _ _ _
      | HeterogeneousSequence (Some _) _
      | Mapping (Some _) _ _
      | Object (Some _) _ _ _ _ _ _ => false
      | _ => true
      end
  end.

(** [isinstance(x, bool) or x is REMOVE] *)
Definition is_bool_or_REMOVE (obj : pyobj) : bool :=
  match obj with
  | OBool _ | REMOVE => true
  | _ => false
  end.

(** *** Examples *)

(** [AdaptBy(lambda x: text)] *)
Definition adapt_to_constant (text : string) : validator :=
  Validator (Some 0) (AdaptBy (fun _ => Ok (PStr text)) (fun _ => true)).

(** [Object({"foo": "number"}, additional)] *)
Definition object_foo_number (additional : pyobj) : pyobj :=
  OValidator (Object_init [(Key (PStr "foo"), OStr "number")] additional false).

(** [Object({Optional("bar"): "string"}, REMOVE, True)] *)
Definition object_optional_bar : pyobj :=
  OValidator (Object_init [(Optional (PStr "bar") None, OStr "string")]
                REMOVE true).

(** [ValidationContext(TypeNames(), {}, {"Object": ObjectFactory(),
    "Strict": ObjectFactory(additional_properties=False)}, repr)]:
    two factories that both parse a dict, ["Object"] registered first. *)
Definition two_factories_context : ValidationContext :=
  mkValidationContext [] []
    [ ("Object", ObjectFactory (OBool true) false);
      ("Strict", ObjectFactory (OBool false) false) ]
    plain_repr.



(** [min <= n <= max], an absent bound holding *)
Definition within_bounds (min max : option Z) (n : Z) : bool :=
  match min with Some m => (m <=? n)%Z | None => true end &&
  match max with Some m => (n <=? m)%Z | None => true end.

(** a list or a tuple *)
Definition is_list_or_tuple (value : pyvalue) : bool :=
  match value with PList _ | PTuple _ => true | _ => false end.

(** [validator.validate(value)] returns [adapted], where no validator leaves
    the value as it is *)
Definition validates_with (h : store) (validator : option validator)
  (value adapted : pyvalue) : Prop :=
  match validator with
  | Some v => validate h v value = Ok adapted
  | None => adapted = value
  end.

(** the key that a key of the [properties] dict declares *)
Definition property_key (p : property) : pyvalue :=
  match p with
  | Key k => k
  | Optional k _ => k
  end.

(* ================================================================== *)
(** ** Properties *)

(** *** Strings *)

Lemma append_nil_r (s : string) : s +:+ "" = s.
Proof. induction s as [|a s IH]; simpl; [reflexivity | now rewrite IH]. Qed.

Lemma append_assoc (s t u : string) : (s +:+ t) +:+ u = s +:+ t +:+ u.
Proof. induction s as [|a s IH]; simpl; [reflexivity | now rewrite IH]. Qed.

Lemma join_empty_cons (s : string) (l : list string) :
  join "" (s :: l) = s +:+ join "" l.
Proof.
  unfold join. destruct l as [|t l]; simpl.
  - now rewrite append_nil_r.
  - reflexivity.
Qed.

(** *** Error rendering *)

Lemma to_text_indexers_bound (h : store) (c : ctx_id) (items : list pyvalue) :
  to_text_indexers h (Some c) items = Ok (map (indexer (h c)) items).
Proof.
  induction items as [|item rest IH]; simpl.
  - reflexivity.
  - rewrite IH. reflexivity.
Qed.

Lemma to_text_message_bound (h : store) (c : ctx_id) (m : string)
  (v : option pyvalue) (items : list pyvalue) :
  to_text h (mkValidationError (Some c) m v items) =
  let self := mkValidationError (Some c) m v items in
  match rev items with
  | [] => Ok (rendered_message (h c) self)
  | PStr name :: inner =>
      Ok (rendered_message (h c) self +:+ " (at " +:+
          join "" (name :: map (indexer (h c)) inner) +:+ ")")
  | outer :: inner =>
      Ok (rendered_message (h c) self +:+ " (at " +:+
          join "" ("value" :: map (indexer (h c)) (outer :: inner)) +:+ ")")
  end.
Proof.
  unfold to_text, rendered_message. cbn [value val_context msg error_path_items].
  destruct v as [v|]; cbn [the_context bind];
    (destruct (rev items) as [|outer inner]; [reflexivity|]);
    destruct outer; rewrite to_text_indexers_bound; reflexivity.
Qed.

(** C5 (as amended).  For every [ValidationError] bound to a context,
    [to_text] renders ["Invalid value <repr> (<type name>): <message>"] when a
    value is attached and the message alone otherwise; without path segments
    nothing is appended; with path segments [" (at <path>)"] is appended,
    the segments in reverse (outermost first) order: when the outermost
    segment is a string it is rendered as a plain name and every later segment
    as an indexer ["[<repr(segment)>]"]; when it is not a string the name
    ["value"] comes first and every segment, the outermost included, is
    rendered as an indexer. *)
Theorem to_text_rendering (h : store) (c : ctx_id) (m : string)
  (v : option pyvalue) (items : list pyvalue) :
  let context := h c in
  let self := mkValidationError (Some c) m v items in
  to_text h self =
  Ok (rendered_message context self +:+
      match rev items with
      | [] => ""
      | PStr name :: inner =>
          " (at " +:+ name +:+ join "" (map (indexer context) inner) +:+ ")"
      | outer :: inner =>
          " (at value" +:+ join "" (map (indexer context) (outer :: inner))
          +:+ ")"
      end).
Proof.
  cbv zeta. rewrite to_text_message_bound. cbv zeta.
  destruct (rev items) as [|outer inner].
  - now rewrite append_nil_r.
  - destruct outer; rewrite join_empty_cons, ?append_assoc; reflexivity.
Qed.

(** C5, as stated, fails: for the error with message ["oops"], no value and
    the single path segment [1] (an index of a top-level sequence), [to_text]
    gives ["oops (at value[1])"]: the first segment is rendered as an
    indexer after the name ["value"], not as a plain name. *)
Lemma to_text_first_segment_not_plain :
  let self := mkValidationError (Some 0) "oops" None [PInt 1] in
  to_text default_store self = Ok "oops (at value[1])" /\
  to_text_first_plain (default_store 0) self = "oops (at 1)" /\
  to_text default_store self <> Ok (to_text_first_plain (default_store 0) self).
Proof.
  cbv zeta. split; [reflexivity|]. split; [reflexivity|].
  vm_compute. discriminate.
Qed.

(** C10.  For every [ValidationError] (bound to a context) whose outermost,
    that is last appended, path segment is not a string, [to_text] puts the
    name ["value"] first and renders that segment, like every other one, as
    an indexer: the path reads ["value[1]..."]. *)
Theorem to_text_value_prefix (h : store) (c : ctx_id) (m : string)
  (v : option pyvalue) (items : list pyvalue) (outer : pyvalue) :
  is_string outer = false ->
  let context := h c in
  let self := mkValidationError (Some c) m v (items ++ [outer]) in
  to_text h self =
  Ok (rendered_message context self +:+ " (at value" +:+
      indexer context outer +:+
      join "" (map (indexer context) (rev items)) +:+ ")").
Proof.
  intros Houter. cbv zeta. rewrite to_text_message_bound. cbv zeta.
  rewrite rev_app_distr. cbn [rev app].
  destruct outer; try discriminate Houter; cbn [map];
    rewrite !join_empty_cons, ?append_assoc; reflexivity.
Qed.

Lemma to_text_value_prefix_witness :
  to_text default_store
    (mkValidationError (Some 0) "must be integer" (Some (PStr "2")) [PInt 1]) =
  Ok "Invalid value '2' (str): must be integer (at value[1])".
Proof.
  exact (to_text_value_prefix default_store 0 "must be integer"
           (Some (PStr "2")) [] (PInt 1) eq_refl).
Defined.

(** *** Composite validators *)

Section CompositeLoops.
Variable validate_component : validator -> pyvalue -> outcome pyvalue.
Variable self : validator.
Variable value : pyvalue.

Lemma AnyOf_loop_first_accept (pre : list validator) (c : validator)
  (post : list validator) (messages : list string) (adapted : pyvalue) :
  Forall (fun v => exists ex, validate_component v value = Invalid ex) pre ->
  validate_component c value = Ok adapted ->
  AnyOf_loop validate_component self (pre ++ c :: post) messages value
  = Ok adapted.
Proof.
  intros Hpre Hc. revert messages.
  induction Hpre as [|v pre [ex Hv] _ IH]; intros messages; simpl.
  - now rewrite Hc.
  - rewrite Hv. apply IH.
Qed.

Lemma AnyOf_loop_all_reject (validators : list validator)
  (errors : list ValidationError) (messages : list string) :
  Forall2 (fun v ex => validate_component v value = Invalid ex)
          validators errors ->
  AnyOf_loop validate_component self validators messages value
  = Invalid (new_error (bound_context self)
               (join " or " (messages ++ map msg errors)) value).
Proof.
  intros H. revert messages.
  induction H as [|v ex validators errors Hv _ IH]; intros messages; simpl.
  - now rewrite app_nil_r.
  - rewrite Hv, IH, <- app_assoc. reflexivity.
Qed.

Lemma AllOf_loop_all_accept (pre : list validator) (c : validator)
  (result adapted : pyvalue) :
  Forall (fun v => exists r, validate_component v value = Ok r) pre ->
  validate_component c value = Ok adapted ->
  AllOf_loop validate_component (pre ++ [c]) result value = Ok adapted.
Proof.
  intros Hpre Hc. revert result.
  induction Hpre as [|v pre [r Hv] _ IH]; intros result; simpl.
  - now rewrite Hc.
  - rewrite Hv. simpl. apply IH.
Qed.

Lemma AllOf_loop_first_failure (pre : list validator) (c : validator)
  (post : list validator) (result : pyvalue) (ex : ValidationError) :
  Forall (fun v => exists r, validate_component v value = Ok r) pre ->
  validate_component c value = Invalid ex ->
  AllOf_loop validate_component (pre ++ c :: post) result value = Invalid ex.
Proof.
  intros Hpre Hc. revert result.
  induction Hpre as [|v pre [r Hv] _ IH]; intros result; simpl.
  - now rewrite Hc.
  - rewrite Hv. simpl. apply IH.
Qed.
End CompositeLoops.

(** C2.  For every [AllOf] validator and every value, with every component
    validator applied to the original value: when all the components accept
    it, [validate] returns the adaptation of the last component; the first
    component that rejects it aborts the validation with its own
    [ValidationError], whatever the later components are. *)
Theorem AllOf_validate_last_wins (h : store) (ctx : option ctx_id)
  (schemas : option (list pyobj)) (value : pyvalue) :
  (forall (pre : list validator) (last : validator) (adapted : pyvalue),
      Forall (fun v => exists r, validate h v value = Ok r) pre ->
      validate h last value = Ok adapted ->
      validate h (Validator ctx (AllOf schemas (pre ++ [last]))) value
      = Ok adapted) /\
  (forall (pre : list validator) (c : validator) (post : list validator)
          (ex : ValidationError),
      Forall (fun v => exists r, validate h v value = Ok r) pre ->
      validate h c value = Invalid ex ->
      validate h (Validator ctx (AllOf schemas (pre ++ c :: post))) value
      = Invalid ex).
Proof.
  split; intros; cbn [validate]; unfold AllOf_validate.
  - now apply AllOf_loop_all_accept.
  - now apply AllOf_loop_first_failure.
Qed.

Lemma AllOf_validate_last_wins_witness :
  validate default_store
    (Validator (Some 0)
       (AllOf None [Validator (Some 0) Number; adapt_to_constant "last"]))
    (PInt 3) = Ok (PStr "last") /\
  validate default_store
    (Validator (Some 0)
       (AllOf None [adapt_to_constant "first";
                    Validator (Some 0) (NoneValue (DefaultValue PNone));
                    adapt_to_constant "never"]))
    (PInt 3)
  = Invalid (mkValidationError (Some 0) "must be NoneType" (Some (PInt 3)) []).
Proof.
  split.
  - apply (proj1 (AllOf_validate_last_wins default_store (Some 0) None (PInt 3))
             [Validator (Some 0) Number] (adapt_to_constant "last")).
    + repeat constructor. exists (PInt 3). reflexivity.
    + reflexivity.
  - apply (proj2 (AllOf_validate_last_wins default_store (Some 0) None (PInt 3))
             [adapt_to_constant "first"]
             (Validator (Some 0) (NoneValue (DefaultValue PNone)))
             [adapt_to_constant "never"]).
    + repeat constructor. exists (PStr "first"). reflexivity.
    + reflexivity.
Defined.

(** C3.  For every [AnyOf] validator and every value, the components are
    tried in the order of their declaration and the adaptation of the first
    one that accepts is returned; when every component rejects, [validate]
    raises a [ValidationError] whose message is the messages of the
    components joined by [" or "], in their order, which carries the value
    and no path segment. *)
Theorem AnyOf_validate_first_wins (h : store) (ctx : option ctx_id)
  (schemas : option (list pyobj)) (value : pyvalue) :
  (forall (pre : list validator) (c : validator) (post : list validator)
          (adapted : pyvalue),
      Forall (fun v => exists ex, validate h v value = Invalid ex) pre ->
      validate h c value = Ok adapted ->
      validate h (Validator ctx (AnyOf schemas (pre ++ c :: post))) value
      = Ok adapted) /\
  (forall (validators : list validator) (errors : list ValidationError),
      Forall2 (fun v ex => validate h v value = Invalid ex) validators errors ->
      validate h (Validator ctx (AnyOf schemas validators)) value
      = Invalid (mkValidationError ctx (join " or " (map msg errors))
                   (Some value) [])).
Proof.
  split; intros; cbn [validate]; unfold AnyOf_validate.
  - now apply AnyOf_loop_first_accept.
  - now rewrite (AnyOf_loop_all_reject _ _ _ _ errors).
Qed.

Lemma AnyOf_validate_first_wins_witness :
  validate default_store
    (Validator (Some 0)
       (AnyOf None [Validator (Some 0) (NoneValue (DefaultValue PNone));
                    adapt_to_constant "first"; adapt_to_constant "second"]))
    (PInt 3) = Ok (PStr "first") /\
  validate default_store
    (Validator (Some 0)
       (AnyOf None [Validator (Some 0) Integer;
                    Validator (Some 1) (NoneValue (DefaultValue PNone))]))
    (PStr "x")
  = Invalid (mkValidationError (Some 0) "must be integer or must be NoneType"
               (Some (PStr "x")) []).
Proof.
  split.
  - apply (proj1 (AnyOf_validate_first_wins default_store (Some 0) None (PInt 3))
             [Validator (Some 0) (NoneValue (DefaultValue PNone))]
             (adapt_to_constant "first") [adapt_to_constant "second"]).
    + repeat constructor. eexists. reflexivity.
    + reflexivity.
  - apply (proj2 (AnyOf_validate_first_wins default_store (Some 0) None
                    (PStr "x"))
             [Validator (Some 0) Integer;
              Validator (Some 1) (NoneValue (DefaultValue PNone))]
             [mkValidationError (Some 0) "must be integer" (Some (PStr "x")) [];
              mkValidationError (Some 1) "must be NoneType" (Some (PStr "x"))
                []]).
    repeat constructor.
Defined.

(** *** Equality of hashable values *)

Lemma hashable_tuple_cons x a : hashable (PTuple (x :: a)) = hashable x && hashable (PTuple a).
Proof. reflexivity. Qed.

Lemma py_eqb_tuple_cons x a y b :
  py_eqb (PTuple (x :: a)) (PTuple (y :: b)) = py_eqb x y && py_eqb (PTuple a) (PTuple b).
Proof. reflexivity. Qed.

(** Induction on values, tuples item by item. *)
Lemma pyvalue_tuple_ind (P : pyvalue -> Prop) :
  P PNone -> (forall b, P (PBool b)) -> (forall n, P (PInt n)) ->
  (forall s, P (PStr s)) -> (forall items, P (PList items)) ->
  P (PTuple []) ->
  (forall x a, P x -> P (PTuple a) -> P (PTuple (x :: a))) ->
  (forall items, P (PDict items)) ->
  forall v, P v.
Proof.
  intros HN HB HI HS HL HT0 HT HD.
  fix IH 1. intros [ | b | n | s | items | items | items].
  - exact HN.
  - apply HB.
  - apply HI.
  - apply HS.
  - apply HL.
  - induction items as [|x a IHa]; [exact HT0 | apply HT; [apply IH | exact IHa]].
  - apply HD.
Qed.

Lemma py_eqb_refl x : hashable x = true -> py_eqb x x = true.
Proof.
  induction x using pyvalue_tuple_ind; intros H; try discriminate H; try reflexivity.
  - simpl. apply Bool.eqb_reflx.
  - simpl. apply Z.eqb_refl.
  - simpl. apply String.eqb_refl.
  - rewrite hashable_tuple_cons in H. apply andb_prop in H as [H1 H2].
    rewrite py_eqb_tuple_cons, IHx, IHx0; auto.
Qed.

Lemma py_eqb_sym x : hashable x = true -> forall y, py_eqb x y = py_eqb y x.
Proof.
  induction x using pyvalue_tuple_ind; intros H y; try discriminate H.
  - destruct y; reflexivity.
  - destruct y; try reflexivity; simpl.
    + destruct b, b0; reflexivity.
    + apply Z.eqb_sym.
  - destruct y; try reflexivity; simpl; apply Z.eqb_sym.
  - destruct y; try reflexivity; simpl; apply String.eqb_sym.
  - destruct y as [ | | | | |[|y b]| ]; reflexivity.
  - rewrite hashable_tuple_cons in H. apply andb_prop in H as [H1 H2].
    destruct y as [ | | | | |[|y b]| ]; try reflexivity.
    rewrite !py_eqb_tuple_cons, IHx by assumption. f_equal.
    apply IHx0; assumption.
Qed.

Ltac solve_scalar :=
  simpl in *;
  repeat match goal with
         | H : Bool.eqb _ _ = true |- _ => apply Bool.eqb_prop in H
         | H : (_ =? _)%Z = true |- _ => apply Z.eqb_eq in H
         end;
  subst;
  repeat match goal with b : bool |- _ => destruct b end;
  simpl in *; try reflexivity; try discriminate; try (apply Z.eqb_eq; lia).

Lemma py_eqb_trans x : hashable x = true ->
  forall y z, py_eqb x y = true -> py_eqb y z = true -> py_eqb x z = true.
Proof.
  induction x using pyvalue_tuple_ind; intros H y z Hxy Hyz; try discriminate H.
  - destruct y; try discriminate Hxy. exact Hyz.
  - destruct y; try discriminate Hxy; destruct z; try discriminate Hyz;
      solve_scalar.
  - destruct y; try discriminate Hxy; destruct z; try discriminate Hyz;
      solve_scalar.
  - destruct y; try discriminate Hxy; destruct z; try discriminate Hyz; simpl in *.
    apply String.eqb_eq in Hxy, Hyz. subst. apply String.eqb_refl.
  - destruct y as [ | | | | |[|y b]| ]; try discriminate Hxy. exact Hyz.
  - rewrite hashable_tuple_cons in H. apply andb_prop in H as [H1 H2].
    destruct y as [ | | | | |[|y b]| ]; try discriminate Hxy.
    destruct z as [ | | | | |[|z c]| ]; try discriminate Hyz.
    rewrite py_eqb_tuple_cons in *.
    apply andb_prop in Hxy as [Hxy1 Hxy2]. apply andb_prop in Hyz as [Hyz1 Hyz2].
    rewrite (IHx H1 y z), (IHx0 H2 (PTuple b) (PTuple c)); auto.
Qed.

Lemma py_eqb_hashable x : hashable x = true ->
  forall y, py_eqb x y = true -> hashable y = true.
Proof.
  induction x using pyvalue_tuple_ind; intros H y Hxy; try discriminate H;
    try (destruct y; try discriminate Hxy; reflexivity).
  - destruct y as [ | | | | |[|y b]| ]; try discriminate Hxy. reflexivity.
  - rewrite hashable_tuple_cons in H. apply andb_prop in H as [H1 H2].
    destruct y as [ | | | | |[|y b]| ]; try discriminate Hxy.
    rewrite py_eqb_tuple_cons in Hxy. apply andb_prop in Hxy as [Hxy1 Hxy2].
    rewrite hashable_tuple_cons, (IHx H1 y), (IHx0 H2 (PTuple b)); auto.
Qed.

Lemma key_class name k k' :
  hashable name = true -> py_eqb name k = true -> py_eqb k k' = py_eqb name k'.
Proof.
  intros Hh Hk.
  assert (Hkh : hashable k = true) by (eapply py_eqb_hashable; eauto).
  assert (Hkn : py_eqb k name = true) by (rewrite <- py_eqb_sym; auto).
  destruct (py_eqb name k') eqn:E.
  - eapply py_eqb_trans; eauto.
  - destruct (py_eqb k k') eqn:E'; [|reflexivity].
    rewrite <- E. symmetry. eapply py_eqb_trans; eauto.
Qed.

Lemma key_class_r name k k' :
  hashable name = true -> py_eqb name k = true -> py_eqb k' k = py_eqb k' name.
Proof.
  intros Hh Hk.
  assert (Hkh : hashable k = true) by (eapply py_eqb_hashable; eauto).
  rewrite <- (py_eqb_sym k Hkh), <- (py_eqb_sym name Hh).
  now apply key_class.
Qed.

Lemma py_in_false k l :
  py_in k l = false <-> forall k', In k' l -> py_eqb k k' = false.
Proof.
  unfold py_in. induction l as [|a l IH]; simpl.
  - split; [intros _ k' [] | reflexivity].
  - rewrite orb_false_iff, IH. split.
    + intros [Ha Hl] k' [<-|Hin]; auto.
    + intros H. split; [apply H; now left | intros k' Hin; apply H; now right].
Qed.

Lemma py_in_true k l :
  py_in k l = true <-> exists k', In k' l /\ py_eqb k k' = true.
Proof. unfold py_in. apply existsb_exists. Qed.

(** *** Dicts *)

Section Dict.
Context {A : Type}.
Implicit Types d : list (pyvalue * A).

Lemma lookup_None k d : lookup k d = None <-> py_in k (map fst d) = false.
Proof.
  unfold py_in. induction d as [|[k' v'] d IH]; simpl; [tauto|].
  destruct (py_eqb k k'); simpl; [split; discriminate | exact IH].
Qed.

Lemma lookup_same_key name k d :
  hashable name = true -> py_eqb k name = true -> lookup k d = lookup name d.
Proof.
  intros Hh Hk. induction d as [|[k' v'] d IH]; simpl; [reflexivity|].
  rewrite py_eqb_sym in Hk by (eapply py_eqb_hashable; [exact Hh|]; rewrite py_eqb_sym; eauto).
  rewrite (key_class name k k' Hh Hk), IH. reflexivity.
Qed.

Lemma lookup_assign_eq name k v d :
  hashable name = true -> py_eqb k name = true ->
  lookup k (assign name v d) = Some v.
Proof.
  intros Hh Hk. induction d as [|[k' v'] d IH]; simpl.
  - now rewrite Hk.
  - destruct (py_eqb name k') eqn:E; simpl.
    + now rewrite (key_class_r name k' k Hh E), Hk.
    + assert (Hnk : py_eqb name k = true) by (rewrite py_eqb_sym; auto).
      now rewrite (key_class name k k' Hh Hnk), E.
Qed.

Lemma lookup_assign_neq name k v d :
  hashable name = true -> py_eqb k name = false ->
  lookup k (assign name v d) = lookup k d.
Proof.
  intros Hh Hk. induction d as [|[k' v'] d IH]; simpl.
  - now rewrite Hk.
  - destruct (py_eqb name k') eqn:E; simpl.
    + now rewrite (key_class_r name k' k Hh E), Hk.
    + now rewrite IH.
Qed.

Lemma lookup_delete_neq name k d d' :
  hashable name = true -> py_eqb k name = false ->
  delete name d = Some d' -> lookup k d' = lookup k d.
Proof.
  intros Hh Hk. revert d'.
  induction d as [|[k' v'] d IH]; simpl; intros d' Hd; [discriminate|].
  destruct (py_eqb name k') eqn:E.
  - injection Hd as <-. now rewrite (key_class_r name k' k Hh E), Hk.
  - destruct (delete name d) as [d0|]; [|discriminate].
    injection Hd as <-. simpl. now rewrite (IH d0).
Qed.

Lemma delete_Some name d :
  lookup name d <> None -> exists d', delete name d = Some d'.
Proof.
  induction d as [|[k' v'] d IH]; simpl; intros H; [congruence|].
  destruct (py_eqb name k'); [eauto|].
  destruct (IH H) as [d0 ->]. simpl. eauto.
Qed.

Lemma keys_delete name d d' :
  delete name d = Some d' ->
  exists l1 k l2, map fst d = l1 ++ k :: l2 /\ map fst d' = l1 ++ l2 /\
                  py_eqb name k = true.
Proof.
  revert d'. induction d as [|[k' v'] d IH]; simpl; intros d' Hd; [discriminate|].
  destruct (py_eqb name k') eqn:E.
  - injection Hd as <-. exists [], k', (map fst d). auto.
  - destruct (delete name d) as [d0|]; [|discriminate].
    injection Hd as <-. destruct (IH d0 eq_refl) as (l1 & k & l2 & H1 & H2 & H3).
    exists (k' :: l1), k, l2. simpl. rewrite H1, H2. auto.
Qed.

Lemma keys_assign name v d :
  map fst (assign name v d) =
  if py_in name (map fst d) then map fst d else map fst d ++ [name].
Proof.
  unfold py_in. induction d as [|[k' v'] d IH]; simpl; [reflexivity|].
  destruct (py_eqb name k') eqn:E; simpl; [reflexivity|].
  rewrite IH. now destruct (existsb (py_eqb name) (map fst d)).
Qed.
End Dict.

Lemma keys_distinct_app_remove l1 k l2 :
  keys_distinct (l1 ++ k :: l2) = true -> keys_distinct (l1 ++ l2) = true /\
  py_in k l2 = false /\ (forall k', In k' l1 -> py_eqb k' k = false).
Proof.
  induction l1 as [|a l1 IH]; simpl.
  - intros H. apply andb_prop in H as [H1 H2].
    apply negb_true_iff in H1. repeat split; auto. intros k' [].
  - intros H. apply andb_prop in H as [H1 H2].
    apply negb_true_iff in H1. destruct (IH H2) as (H3 & H4 & H5).
    rewrite py_in_false in H1.
    repeat split; auto.
    + rewrite H3, andb_true_r. apply negb_true_iff, py_in_false.
      intros k' Hin. apply H1. apply in_app_iff in Hin as [Hin|Hin];
        apply in_app_iff; [now left | right; now right].
    + intros k' [<-|Hin]; [|now apply H5].
      apply H1. apply in_app_iff. right. now left.
Qed.

Lemma keys_distinct_snoc l name :
  hashable name = true -> keys_distinct l = true -> py_in name l = false ->
  keys_distinct (l ++ [name]) = true.
Proof.
  intros Hh Hd Hn. induction l as [|a l IH]; simpl in *; [reflexivity|].
  apply andb_prop in Hd as [H1 H2]. apply negb_true_iff in H1.
  unfold py_in in Hn. simpl in Hn. apply orb_false_iff in Hn as [Hna Hnl].
  rewrite IH by assumption. rewrite andb_true_r. apply negb_true_iff.
  unfold py_in. rewrite existsb_app. fold (py_in a l). rewrite H1. simpl.
  rewrite orb_false_r. rewrite <- py_eqb_sym; assumption.
Qed.

Lemma keys_distinct_filter f l :
  keys_distinct l = true -> keys_distinct (filter f l) = true.
Proof.
  induction l as [|a l IH]; simpl; [reflexivity|].
  intros H. apply andb_prop in H as [H1 H2]. apply negb_true_iff in H1.
  destruct (f a); simpl; [|auto].
  rewrite IH by assumption. rewrite andb_true_r. apply negb_true_iff.
  rewrite py_in_false in *. intros k' Hin. apply filter_In in Hin as [Hin _]. auto.
Qed.

Lemma lookup_delete_eq {A} name k (d d' : list (pyvalue * A)) :
  hashable name = true -> keys_distinct (map fst d) = true ->
  py_eqb k name = true -> delete name d = Some d' -> lookup k d' = None.
Proof.
  intros Hh Hd Hk Hdel.
  destruct (keys_delete _ _ _ Hdel) as (l1 & k0 & l2 & H1 & H2 & H3).
  rewrite H1 in Hd. destruct (keys_distinct_app_remove _ _ _ Hd) as (_ & H4 & H5).
  apply lookup_None. rewrite H2. apply py_in_false. intros k' Hin.
  assert (Hk0 : hashable k0 = true) by (eapply py_eqb_hashable; eauto).
  assert (Hkk0 : py_eqb k k0 = true).
  { rewrite (key_class_r name k0 k Hh H3). exact Hk. }
  assert (Hkh : hashable k = true).
  { eapply (py_eqb_hashable k0); auto. rewrite py_eqb_sym; auto. }
  assert (Hk0k : py_eqb k0 k = true) by (rewrite py_eqb_sym; auto).
  rewrite (key_class k0 k k' Hk0 Hk0k).
  apply in_app_iff in Hin as [Hin|Hin].
  - rewrite py_eqb_sym by assumption. now apply H5.
  - rewrite py_in_false in H4. now apply H4.
Qed.

(** *** The loops of [Object.validate] *)

Lemma forallb_hashable_In l k :
  forallb hashable l = true -> In k l -> hashable k = true.
Proof. intros H Hin. rewrite forallb_forall in H. auto. Qed.

Section ObjectLemmas.
Variable validate_component : validator -> pyvalue -> outcome pyvalue.

Lemma Object_properties_invariant od rk ign named value :
  forallb hashable (map fst named) = true ->
  forall result r0,
  Object_properties validate_component od rk ign named value result = Ok r0 ->
  (forall k, py_in k (map fst named) = false -> lookup k r0 = lookup k result) /\
  (keys_distinct (map fst result) = true -> keys_distinct (map fst r0) = true).
Proof.
  induction named as [|[name v] rest IH]; intros Hh result r0 H.
  - injection H as <-. split; auto.
  - simpl in Hh. apply andb_prop in Hh as [Hname Hrest].
    specialize (IH Hrest). cbn [Object_properties] in H.
    assert (Hneq : forall k, py_in k (map fst ((name, v) :: rest)) = false ->
                   py_eqb k name = false /\ py_in k (map fst rest) = false).
    { intros k Hk. unfold py_in in *. simpl in Hk.
      now apply orb_false_iff in Hk. }
    destruct (lookup name value) as [item|].
    + destruct (validate_component v item) as [adapted|ex|x]; [| |discriminate].
      * destruct (IH _ _ H) as [IH1 IH2]. split.
        -- intros k Hk. destruct (Hneq k Hk) as [Hk1 Hk2].
           rewrite IH1 by assumption. now apply lookup_assign_neq.
        -- intros Hd. apply IH2. rewrite keys_assign.
           destruct (py_in name (map fst result)) eqn:E; [assumption|].
           now apply keys_distinct_snoc.
      * destruct (negb ign || py_in name rk); [discriminate|].
        destruct (delete name result) as [result'|] eqn:Hdel; [|discriminate].
        destruct (IH _ _ H) as [IH1 IH2]. split.
        -- intros k Hk. destruct (Hneq k Hk) as [Hk1 Hk2].
           rewrite IH1 by assumption. now apply (lookup_delete_neq name).
        -- intros Hd. apply IH2.
           destruct (keys_delete _ _ _ Hdel) as (l1 & k0 & l2 & H1 & H2 & _).
           rewrite H1 in Hd. rewrite H2.
           now apply (keys_distinct_app_remove l1 k0 l2).
    + destruct (lookup name od) as [default|].
      * destruct (apply_default default) as [item|ex|x]; [|discriminate..].
        cbn [bind] in H. destruct (IH _ _ H) as [IH1 IH2]. split.
        -- intros k Hk. destruct (Hneq k Hk) as [Hk1 Hk2].
           rewrite IH1 by assumption. now apply lookup_assign_neq.
        -- intros Hd. apply IH2. rewrite keys_assign.
           destruct (py_in name (map fst result)) eqn:E; [assumption|].
           now apply keys_distinct_snoc.
      * destruct (IH _ _ H) as [IH1 IH2]. split; auto.
        intros k Hk. destruct (Hneq k Hk) as [Hk1 Hk2]. auto.
Qed.

Lemma Object_remove_spec extras :
  forallb hashable extras = true -> keys_distinct extras = true ->
  forall result,
  keys_distinct (map fst result) = true ->
  (forall e, In e extras -> lookup e result <> None) ->
  exists r, Object_remove extras result = Ok r /\
    (forall k, py_in k extras = true -> lookup k r = None) /\
    (forall k, py_in k extras = false -> lookup k r = lookup k result).
Proof.
  induction extras as [|e rest IH]; intros Hh Hd result Hr Hpresent.
  - exists result. repeat split; auto. intros k Hk. discriminate.
  - simpl in Hh, Hd. apply andb_prop in Hh as [He Hrest].
    apply andb_prop in Hd as [Hd1 Hd2]. apply negb_true_iff in Hd1.
    destruct (delete_Some e result) as [r1 Hdel]; [apply Hpresent; now left|].
    assert (Hr1 : keys_distinct (map fst r1) = true).
    { destruct (keys_delete _ _ _ Hdel) as (l1 & k0 & l2 & H1 & H2 & _).
      rewrite H1 in Hr. rewrite H2.
      now apply (keys_distinct_app_remove l1 k0 l2). }
    assert (Hp1 : forall e', In e' rest -> lookup e' r1 <> None).
    { intros e' Hin. rewrite (lookup_delete_neq e e' result r1); auto.
      - apply Hpresent. now right.
      - rewrite <- py_eqb_sym by assumption.
        rewrite py_in_false in Hd1. auto. }
    destruct (IH Hrest Hd2 r1 Hr1 Hp1) as (r & Hrun & Habs & Hkeep).
    exists r. cbn [Object_remove]. rewrite Hdel. split; [exact Hrun|]. split.
    + intros k Hk. unfold py_in in Hk. simpl in Hk.
      destruct (py_in k rest) eqn:Ekr; [now apply Habs|].
      fold (py_in k rest) in Hk. rewrite Ekr, orb_false_r in Hk.
      rewrite Hkeep by assumption.
      now apply (lookup_delete_eq e k result r1).
    + intros k Hk. unfold py_in in Hk. simpl in Hk.
      apply orb_false_iff in Hk as [Hk1 Hk2].
      rewrite Hkeep by assumption. now apply (lookup_delete_neq e).
Qed.

Lemma Object_additional_failure additional pre k post value result item ex :
  Forall (fun k' => exists item' x, lookup k' value = Some item' /\
                      validate_component additional item' = Ok x) pre ->
  lookup k value = Some item ->
  validate_component additional item = Invalid ex ->
  Object_additional validate_component additional (pre ++ k :: post) value
    result = Invalid (add_error_path_item ex k).
Proof.
  intros Hpre Hk Hex. revert result.
  induction Hpre as [|k' pre (item' & x & H1 & H2) _ IH]; intros result; simpl.
  - rewrite Hk. unfold validate_at. now rewrite Hex.
  - rewrite H1. unfold validate_at. rewrite H2. simpl. apply IH.
Qed.

Lemma Object_additional_success additional extras value :
  forallb hashable extras = true ->
  Forall (fun k => exists item x, lookup k value = Some item /\
                     validate_component additional item = Ok x) extras ->
  forall result,
  exists r, Object_additional validate_component additional extras value
              result = Ok r /\
    (forall k item x, py_in k extras = true -> lookup k value = Some item ->
                      validate_component additional item = Ok x ->
                      lookup k r = Some x) /\
    (forall k, py_in k extras = false -> lookup k r = lookup k result).
Proof.
  intros Hh Hall. induction Hall as [|e rest (item & x & H1 & H2) _ IH];
    intros result.
  - exists result. repeat split; auto. intros k item x Hk. discriminate.
  - simpl in Hh. apply andb_prop in Hh as [He Hrest].
    destruct (IH Hrest (assign e x result)) as (r & Hrun & Hin & Hout).
    exists r. cbn [Object_additional]. rewrite H1. unfold validate_at.
    rewrite H2. cbn [bind]. split; [exact Hrun|]. split.
    + intros k item' x' Hk Hitem Hx. unfold py_in in Hk. simpl in Hk.
      destruct (py_in k rest) eqn:Ekr; [now apply (Hin k item' x')|].
      fold (py_in k rest) in Hk. rewrite Ekr, orb_false_r in Hk.
      rewrite Hout by assumption.
      rewrite (lookup_same_key e k value He Hk), H1 in Hitem.
      injection Hitem as <-. rewrite H2 in Hx. injection Hx as <-.
      now apply lookup_assign_eq.
    + intros k Hk. unfold py_in in Hk. simpl in Hk.
      apply orb_false_iff in Hk as [Hk1 Hk2].
      rewrite Hout by assumption. now apply lookup_assign_neq.
Qed.
End ObjectLemmas.

(** *** [Object.validate] *)

(** C4.  For every [Object] validator (bound to a context) and every input
    dict in which at least one required key is missing, [validate] raises one
    [ValidationError], on the whole input and without path segment, whose
    message lists all the missing required keys together (in the order in
    which the set is iterated); this happens whatever the validators of the
    properties and of the additional properties are, that is, before any
    property value is validated. *)
Theorem Object_validate_missing_required (h : store) (c : ctx_id)
  (all : option (list (pyvalue * pyobj)))
  (optional_defaults : list (pyvalue * pydefault))
  (required_keys all_keys : list pyvalue) (additional : pyobj)
  (ignore_optional_errors : bool)
  (named_validators : option (list (pyvalue * validator)))
  (items : dict) :
  missing_required required_keys items <> [] ->
  exists missing : list pyvalue,
    Permutation missing (missing_required required_keys items) /\
    (forall k, In k missing <->
               In k required_keys /\ py_in k (dict_keys items) = false) /\
    validate h
      (Validator (Some c)
         (Object all optional_defaults required_keys all_keys additional
                 ignore_optional_errors named_validators))
      (PDict items)
    = Invalid (mkValidationError (Some c)
                 ("missing required properties: [" +:+
                  join ", " (map (repr (h c)) missing) +:+ "]")
                 (Some (PDict items)) []).
Proof.
  intros Hmissing. exists (missing_required required_keys items).
  split; [apply Permutation_refl|]. split.
  - intros k. unfold missing_required, set_difference.
    rewrite filter_In, negb_true_iff. reflexivity.
  - cbn [validate]. unfold Object_validate, Type_validate.
    cbn [isinstance existsb class_of issubclass pyclass_eqb orb negb bind
         dict_items].
    destruct (missing_required required_keys items) as [|k rest];
      [congruence | reflexivity].
Qed.

Lemma Object_validate_missing_required_witness :
  exists missing : list pyvalue,
    Permutation missing [PStr "foo"; PStr "baz"] /\
    validate default_store
      (Validator (Some 0)
         (Object None [] [PStr "foo"; PStr "baz"] [PStr "foo"; PStr "baz"]
                 (OBool true) false None))
      (PDict [])
    = Invalid (mkValidationError (Some 0)
                 ("missing required properties: [" +:+
                  join ", " (map plain_repr missing) +:+ "]")
                 (Some (PDict [])) []).
Proof.
  destruct (Object_validate_missing_required default_store 0 None []
              [PStr "foo"; PStr "baz"] [PStr "foo"; PStr "baz"] (OBool true)
              false None [])
    as (missing & Hperm & _ & Hrun).
  - discriminate.
  - exists missing. split; [exact Hperm | exact Hrun].
Defined.

Lemma additional_properties_facts (all_keys : list pyvalue) (items : dict) :
  well_formed_dict items = true ->
  let extras := additional_properties all_keys items in
  forallb hashable extras = true /\
  keys_distinct extras = true /\
  (forall e, In e extras -> py_in e all_keys = false /\ lookup e items <> None).
Proof.
  intros Hwf. cbv zeta. unfold well_formed_dict in Hwf.
  apply andb_prop in Hwf as [Hh Hd]. unfold additional_properties.
  split; [|split].
  - apply forallb_forall. intros e He. apply filter_In in He as [He _].
    eapply forallb_hashable_In; eauto.
  - now apply keys_distinct_filter.
  - intros e He. apply filter_In in He as [He Hout].
    apply negb_true_iff in Hout. split; [exact Hout|].
    rewrite lookup_None. intros Hnone. rewrite py_in_false in Hnone.
    specialize (Hnone e He).
    rewrite py_eqb_refl in Hnone; [discriminate|].
    eapply forallb_hashable_In; eauto.
Qed.

Lemma declared_not_additional (all_keys extras : list pyvalue) (k : pyvalue) :
  forallb hashable extras = true ->
  (forall e, In e extras -> py_in e all_keys = false) ->
  py_in k all_keys = true -> py_in k extras = false.
Proof.
  intros Hh Hout Hk. apply py_in_false. intros e He.
  destruct (py_eqb k e) eqn:E; [|reflexivity].
  assert (Heh : hashable e = true) by (eapply forallb_hashable_In; eauto).
  apply py_in_true in Hk as (a & Ha & Hka).
  specialize (Hout e He). rewrite py_in_false in Hout.
  rewrite <- (Hout a Ha). symmetry.
  apply (py_eqb_trans e Heh k a); [|exact Hka].
  rewrite py_eqb_sym; assumption.
Qed.

Lemma In_py_in (l : list pyvalue) (k : pyvalue) :
  forallb hashable l = true -> In k l -> py_in k l = true.
Proof.
  intros Hh Hk. apply py_in_true. exists k. split; [exact Hk|].
  apply py_eqb_refl. eapply forallb_hashable_In; eauto.
Qed.

Lemma Object_validate_unfold (h : store) (c : ctx_id)
  (all : option (list (pyvalue * pyobj)))
  (optional_defaults : list (pyvalue * pydefault))
  (required_keys all_keys : list pyvalue) (additional : pyobj)
  (ignore_optional_errors : bool) (named : list (pyvalue * validator))
  (items r0 : dict) :
  let self := Validator (Some c)
                (Object all optional_defaults required_keys all_keys additional
                        ignore_optional_errors (Some named)) in
  missing_required required_keys items = [] ->
  Object_properties (validate h) optional_defaults required_keys
    ignore_optional_errors named items items = Ok r0 ->
  validate h self (PDict items) =
  (result <- Object_handle_additional (validate h) h self all_keys additional
               items r0 ;;
   Ok (PDict result)).
Proof.
  cbv zeta. intros Hmissing Hprops. cbn [validate].
  unfold Object_validate, Type_validate.
  cbn [isinstance existsb class_of issubclass pyclass_eqb orb negb bind
       dict_items].
  rewrite Hmissing, Hprops. reflexivity.
Qed.

Lemma parse_OValidator (fuel : nat) (c : ctx_id) (v : validator) (h : store) :
  parse (S fuel) c (OValidator v) h
  = parse_hook (parse fuel) (set_validation_context v c) h.
Proof. reflexivity. Qed.

(** C7 (as amended).  For every [Object] validator and every input dict with
    keys that are not among the declared keys, once no required key is
    missing and the validation of the declared properties has given its
    result: with [additional=True] that result is returned, in which those
    keys are as in the input; with [additional=False], [validate] raises a
    [ValidationError] that lists them; with [additional=REMOVE] they are
    absent from the returned dict, in which the declared keys are as the
    validation of the declared properties left them; any other value is
    taken as a schema, which [parse] resolves to a validator, and the value
    of each of those keys is validated against it: the first rejection is
    raised with the key as a path segment, and otherwise each of them holds
    its adapted value. *)
Theorem Object_validate_additional (h : store) (c : ctx_id)
  (all : option (list (pyvalue * pyobj)))
  (optional_defaults : list (pyvalue * pydefault))
  (required_keys all_keys : list pyvalue) (ignore_optional_errors : bool)
  (named : list (pyvalue * validator)) (items r0 : dict) :
  let extras := additional_properties all_keys items in
  let object additional :=
    Validator (Some c)
      (Object all optional_defaults required_keys all_keys additional
              ignore_optional_errors (Some named)) in
  well_formed_dict items = true ->
  forallb hashable all_keys = true ->
  map fst named = all_keys ->
  missing_required required_keys items = [] ->
  Object_properties (validate h) optional_defaults required_keys
    ignore_optional_errors named items items = Ok r0 ->
  extras <> [] ->
  (validate h (object (OBool true)) (PDict items) = Ok (PDict r0) /\
   forall k, In k extras -> lookup k r0 = lookup k items) /\
  validate h (object (OBool false)) (PDict items)
  = Invalid (mkValidationError (Some c)
               ("unexpected properties: " +:+ repr (h c) (PList extras))
               (Some (PDict items)) []) /\
  (exists r, validate h (object REMOVE) (PDict items) = Ok (PDict r) /\
     (forall k, In k extras -> lookup k r = None) /\
     (forall k, py_in k all_keys = true -> lookup k r = lookup k r0)) /\
  (forall additional : validator,
     (forall pre k post item ex,
        extras = pre ++ k :: post ->
        Forall (fun k' => exists item' x, lookup k' items = Some item' /\
                            validate h additional item' = Ok x) pre ->
        lookup k items = Some item ->
        validate h additional item = Invalid ex ->
        validate h (object (OValidator additional)) (PDict items)
        = Invalid (add_error_path_item ex k)) /\
     (Forall (fun k => exists item x, lookup k items = Some item /\
                         validate h additional item = Ok x) extras ->
      exists r,
        validate h (object (OValidator additional)) (PDict items)
        = Ok (PDict r) /\
        (forall k item x, In k extras -> lookup k items = Some item ->
                          validate h additional item = Ok x ->
                          lookup k r = Some x) /\
        (forall k, py_in k all_keys = true -> lookup k r = lookup k r0))) /\
  (forall (fuel : nat) (schema : pyobj) (properties : list (pyvalue * pyobj))
          (unparsed : option (list (pyvalue * validator)))
          (additional : validator)
          (parsed : list (pyvalue * validator)) (h0 h1 h2 : store),
     let raw additional :=
       Object (Some properties) optional_defaults required_keys all_keys
              additional ignore_optional_errors unparsed in
     is_bool_or_REMOVE schema = false ->
     parse fuel c schema h0 = Parsed additional h1 ->
     Object_parse_all (parse fuel) (Validator (Some c) (raw schema))
                      properties h1 = Parsed parsed h2 ->
     parse (S fuel) c (OValidator (Validator None (raw schema))) h0
     = Parsed (Validator (Some c)
                 (Object None optional_defaults required_keys all_keys
                         (OValidator additional) ignore_optional_errors
                         (Some parsed))) h2).
Proof.
  cbv zeta. intros Hwf Hkeys Hnamed Hmissing Hprops Hextras.
  destruct (additional_properties_facts all_keys items Hwf)
    as (Hh & Hd & Hfacts).
  assert (Hnames : forallb hashable (map fst named) = true)
    by now rewrite Hnamed.
  destruct (Object_properties_invariant (validate h) optional_defaults
              required_keys ignore_optional_errors named items Hnames
              items r0 Hprops) as [Hsame Hdistinct].
  rewrite Hnamed in Hsame.
  assert (Hr0 : keys_distinct (map fst r0) = true).
  { apply Hdistinct. unfold well_formed_dict in Hwf.
    now apply andb_prop in Hwf as [_ Hwf]. }
  assert (Hdeclared : forall k, py_in k all_keys = true ->
            py_in k (additional_properties all_keys items) = false).
  { intros k Hk. apply (declared_not_additional all_keys); auto.
    intros e He. now apply Hfacts. }
  split; [|split; [|split; [|split]]].
  - split.
    + rewrite (Object_validate_unfold h c all _ _ _ _ _ named items r0);
        auto.
    + intros k Hk. apply Hsame. now apply Hfacts.
  - rewrite (Object_validate_unfold h c all _ _ _ _ _ named items r0); auto.
    unfold Object_handle_additional.
    destruct (additional_properties all_keys items); [congruence|reflexivity].
  - destruct (Object_remove_spec _ Hh Hd r0 Hr0) as (r & Hrun & Habs & Hkeep).
    { intros e He. rewrite Hsame; now apply Hfacts. }
    exists r. split; [|split].
    + rewrite (Object_validate_unfold h c all _ _ _ _ _ named items r0); auto.
      unfold Object_handle_additional.
      destruct (additional_properties all_keys items); [congruence|].
      now rewrite Hrun.
    + intros k Hk. apply Habs. now apply In_py_in.
    + intros k Hk. apply Hkeep. now apply Hdeclared.
  - intros additional. split.
    + intros pre k post item ex Hsplit Hpre Hk Hex.
      rewrite (Object_validate_unfold h c all _ _ _ _ _ named items r0); auto.
      unfold Object_handle_additional. rewrite Hsplit.
      rewrite (Object_additional_failure (validate h) additional pre k post
                 items r0 item ex); auto.
      now destruct pre.
    + intros Hall.
      destruct (Object_additional_success (validate h) additional _ items Hh
                  Hall r0) as (r & Hrun & Hin & Hout).
      exists r. split; [|split].
      * rewrite (Object_validate_unfold h c all _ _ _ _ _ named items r0);
          auto.
        unfold Object_handle_additional.
        destruct (additional_properties all_keys items); [congruence|].
        now rewrite Hrun.
      * intros k item x Hk. apply Hin. now apply In_py_in.
      * intros k Hk. rewrite Hout; auto.
  - intros fuel schema properties unparsed additional parsed h0 h1 h2
      Hschema Hadditional Hparsed.
    rewrite parse_OValidator. cbn [set_validation_context parse_hook].
    assert (Hresolved :
      val_context_parse (parse fuel)
        (Validator (Some c)
           (Object (Some properties) optional_defaults required_keys all_keys
                   schema ignore_optional_errors unparsed)) schema h0
      = Parsed additional h1) by exact Hadditional.
    destruct schema; try discriminate Hschema;
      unfold pbind; rewrite Hresolved; unfold pret;
      rewrite Hparsed; reflexivity.
Qed.

Lemma Object_validate_additional_witness :
  let items := [(PStr "foo", PInt 1); (PStr "extra", PBool true)] in
  let wrong := [(PStr "foo", PInt 1); (PStr "x1", PInt 1)] in
  let object additional :=
    Validator (Some 0)
      (Object None [] [PStr "foo"] [PStr "foo"] additional false
              (Some [(PStr "foo", Validator (Some 0) Number)])) in
  validate default_store (object (OBool true)) (PDict items) = Ok (PDict items) /\
  validate default_store (object (OBool false)) (PDict items)
  = Invalid (mkValidationError (Some 0) "unexpected properties: ['extra']"
               (Some (PDict items)) []) /\
  (exists r, validate default_store (object REMOVE) (PDict items) = Ok (PDict r) /\
             lookup (PStr "extra") r = None /\
             lookup (PStr "foo") r = Some (PInt 1)) /\
  (exists r, validate default_store
               (object (OValidator (Validator (Some 0) Boolean))) (PDict items)
             = Ok (PDict r) /\
             lookup (PStr "extra") r = Some (PBool true)) /\
  validate default_store
    (object (OValidator (Validator (Some 0) Boolean))) (PDict wrong)
  = Invalid (mkValidationError (Some 0) "must be boolean" (Some (PInt 1))
               [PStr "x1"]) /\
  parse 2 0
    (OValidator
       (Validator None
          (Object (Some [(PStr "foo", OValidator (Validator None Number))]) []
                  [PStr "foo"] [PStr "foo"]
                  (OValidator (Validator None Boolean)) false None)))
    default_store
  = Parsed (object (OValidator (Validator (Some 0) Boolean))) default_store.
Proof.
  cbv zeta.
  destruct (Object_validate_additional default_store 0 None [] [PStr "foo"]
              [PStr "foo"] false [(PStr "foo", Validator (Some 0) Number)]
              [(PStr "foo", PInt 1); (PStr "extra", PBool true)]
              [(PStr "foo", PInt 1); (PStr "extra", PBool true)])
    as ((Htrue & _) & Hfalse & (r & Hremove & Habsent & Hkept) & Hschema
        & Hparse);
    [reflexivity | reflexivity | reflexivity | reflexivity | reflexivity
    | discriminate | ].
  destruct (Object_validate_additional default_store 0 None [] [PStr "foo"]
              [PStr "foo"] false [(PStr "foo", Validator (Some 0) Number)]
              [(PStr "foo", PInt 1); (PStr "x1", PInt 1)]
              [(PStr "foo", PInt 1); (PStr "x1", PInt 1)])
    as (_ & _ & _ & Hwrong & _);
    [reflexivity | reflexivity | reflexivity | reflexivity | reflexivity
    | discriminate | ].
  split; [exact Htrue|]. split; [exact Hfalse|]. split; [|split; [|split]].
  - exists r. split; [exact Hremove|]. split.
    + apply Habsent. simpl. now left.
    + rewrite Hkept; reflexivity.
  - destruct (proj2 (Hschema (Validator (Some 0) Boolean)))
      as (r' & Hrun & Hin & _).
    + repeat constructor. exists (PBool true), (PBool true). split; reflexivity.
    + exists r'. split; [exact Hrun|].
      apply (Hin (PStr "extra") (PBool true) (PBool true));
        [simpl; now left | reflexivity | reflexivity].
  - apply (proj1 (Hwrong (Validator (Some 0) Boolean)) [] (PStr "x1") []
             (PInt 1)
             (mkValidationError (Some 0) "must be boolean" (Some (PInt 1)) []));
      [reflexivity | constructor | reflexivity | reflexivity].
  - exact (Hparse 1 (OValidator (Validator None Boolean))
             [(PStr "foo", OValidator (Validator None Number))] None
             (Validator (Some 0) Boolean)
             [(PStr "foo", Validator (Some 0) Number)]
             default_store default_store default_store
             eq_refl eq_refl eq_refl).
Defined.

(** C7, as stated, fails.  With the schema [{"foo": "number"}] and
    [additional=False], the input [{"extra": 1}] has the undeclared key
    ["extra"], and the [ValidationError] that [validate] raises lists the
    missing required key, not the unexpected one.  With the schema
    [{Optional("bar"): "string"}], [additional=REMOVE] and
    [ignore_optional_errors=True], the input [{"bar": 1, "x": 2}] gives [{}]:
    the declared key ["bar"] is not kept. *)
Lemma Object_additional_not_reached :
  match parse 3 0 (object_foo_number (OBool false)) default_store with
  | Parsed v h =>
      additional_properties [PStr "foo"] [(PStr "extra", PInt 1)]
      = [PStr "extra"] /\
      validate h v (PDict [(PStr "extra", PInt 1)])
      = Invalid (mkValidationError (Some 0)
                   "missing required properties: ['foo']"
                   (Some (PDict [(PStr "extra", PInt 1)])) []) /\
      validate h v (PDict [(PStr "extra", PInt 1)])
      <> Invalid (mkValidationError (Some 0)
                    "unexpected properties: ['extra']"
                    (Some (PDict [(PStr "extra", PInt 1)])) [])
  | _ => False
  end /\
  match parse 3 0 object_optional_bar default_store with
  | Parsed v h =>
      validate h v (PDict [(PStr "bar", PInt 1); (PStr "x", PInt 2)])
      = Ok (PDict [])
  | _ => False
  end.
Proof.
  split.
  - vm_compute. split; [reflexivity|]. split; [reflexivity|discriminate].
  - vm_compute. reflexivity.
Qed.

(** *** Schema resolution *)

Lemma pbind_Parsed {A B : Type} (m : parser A) (k : A -> parser B)
  (h : store) (b : B) (h2 : store) :
  pbind m k h = Parsed b h2 ->
  exists a h1, m h = Parsed a h1 /\ k a h1 = Parsed b h2.
Proof.
  unfold pbind. destruct (m h) as [a h1| | |]; try discriminate. eauto.
Qed.

Ltac pbind_inv H :=
  let a := fresh "a" in
  let h1 := fresh "h" in
  let H1 := fresh "Hm" in
  apply pbind_Parsed in H as (a & h1 & H1 & H).

Ltac parsed_inv :=
  repeat match goal with
         | H : pbind _ _ _ = Parsed _ _ |- _ => pbind_inv H
         | H : pret _ _ = Parsed _ _ |- _ =>
             unfold pret in H; injection H as <- <-
         | H : pfail _ _ = Parsed _ _ |- _ => discriminate H
         | H : SchemaError _ = Parsed _ _ |- _ => discriminate H
         end.

Section Hooks.
Variable P : ctx_id -> pyobj -> parser validator.

Lemma parse_hook_context (self v : validator) (h h' : store) :
  parse_hook P self h = Parsed v h' -> bound_context v = bound_context self.
Proof.
  destruct self as [ctx body]. intros H.
  destruct body; cbn [parse_hook] in H;
    repeat match type of H with
           | context [match ?x with _ => _ end] =>
               match x with
               | context [pbind] => fail 1
               | _ => destruct x
               end
           end; cbn [Nullable_parse] in H;
    parsed_inv; try reflexivity.
  unfold Nullable_parse in H. destruct schema as [schema|]; parsed_inv;
    [|reflexivity].
  match type of H with
  | context [match ?v with Validator _ _ => _ end] => destruct v as [actx []]
  end; parsed_inv; reflexivity.
Qed.

Lemma parse_hook_settled (self v : validator) (h h' : store) :
  bound_context self <> None ->
  parse_hook P self h = Parsed v h' -> settled v = true.
Proof.
  destruct self as [[c|] body]; [intros _|intros Hc; now elim Hc]. intros H.
  destruct body; cbn [parse_hook] in H;
    repeat match type of H with
           | context [match ?x with _ => _ end] =>
               match x with
               | context [pbind] => fail 1
               | _ => destruct x
               end
           end;
    parsed_inv; try reflexivity.
  unfold Nullable_parse in H. destruct schema as [schema|]; parsed_inv;
    [|reflexivity].
  match type of H with
  | context [match ?v with Validator _ _ => _ end] => destruct v as [actx []]
  end; parsed_inv; reflexivity.
Qed.

Lemma parse_hook_of_settled (v : validator) (h : store) :
  settled v = true -> parse_hook P v h = Parsed v h.
Proof.
  destruct v as [[c|] body]; [|discriminate].
  destruct body; cbn [settled]; intros H; try reflexivity;
    repeat match goal with
           | x : option _ |- _ => destruct x; try discriminate H
           end; reflexivity.
Qed.
End Hooks.

Lemma set_validation_context_bound (v : validator) (c : ctx_id) :
  bound_context v <> None -> set_validation_context v c = v.
Proof. destruct v as [[c'|] body]; [reflexivity | intros H; now elim H]. Qed.

Lemma set_validation_context_is_bound (v : validator) (c : ctx_id) :
  bound_context (set_validation_context v c) <> None.
Proof. destruct v as [[c'|] body]; discriminate. Qed.

Lemma settled_bound (v : validator) :
  settled v = true -> bound_context v <> None.
Proof. destruct v as [[c'|] body]; [discriminate | discriminate]. Qed.

Lemma parse_unfold (fuel : nat) (c : ctx_id) (obj : pyobj) (h : store)
  (v : validator) (h' : store) :
  parse fuel c obj h = Parsed v h' ->
  exists fuel' v0 h0, fuel = S fuel' /\
    parse_hook (parse fuel') (set_validation_context v0 c) h0 = Parsed v h'.
Proof.
  destruct fuel as [|fuel']; [discriminate|]. cbn [parse]. intros H.
  pbind_inv H. destruct a as [[v0| | | | | | | | | | |]|]; try discriminate H.
  eauto.
Qed.

Lemma parse_result_settled (fuel : nat) (c : ctx_id) (obj : pyobj) (h : store)
  (v : validator) (h' : store) :
  parse fuel c obj h = Parsed v h' -> settled v = true.
Proof.
  intros H. apply parse_unfold in H as (fuel' & v0 & h0 & _ & H).
  eapply parse_hook_settled; [|exact H]. apply set_validation_context_is_bound.
Qed.

Lemma parse_of_settled (fuel : nat) (c : ctx_id) (v : validator) (h : store) :
  settled v = true -> parse (S fuel) c (OValidator v) h = Parsed v h.
Proof.
  intros H. cbn [parse]. unfold pbind, pret.
  rewrite set_validation_context_bound by now apply settled_bound.
  now apply parse_hook_of_settled.
Qed.

Section Monotone.
Variables P P' : ctx_id -> pyobj -> parser validator.
Hypothesis HP : forall c s h v h',
    P c s h = Parsed v h' -> P' c s h = Parsed v h'.

Lemma val_context_parse_mono self s h v h' :
  val_context_parse P self s h = Parsed v h' ->
  val_context_parse P' self s h = Parsed v h'.
Proof.
  unfold val_context_parse. destruct (bound_context self); [apply HP|trivial].
Qed.

Lemma parse_all_mono self schemas : forall h vs h',
  parse_all P self schemas h = Parsed vs h' ->
  parse_all P' self schemas h = Parsed vs h'.
Proof.
  induction schemas as [|s rest IH]; intros h vs h' H; cbn [parse_all] in *.
  - exact H.
  - parsed_inv. unfold pbind.
    rewrite (val_context_parse_mono _ _ _ _ _ Hm), (IH _ _ _ Hm0).
    reflexivity.
Qed.

Lemma Object_parse_all_mono self all : forall h vs h',
  Object_parse_all P self all h = Parsed vs h' ->
  Object_parse_all P' self all h = Parsed vs h'.
Proof.
  induction all as [|[name s] rest IH]; intros h vs h' H;
    cbn [Object_parse_all] in *.
  - exact H.
  - parsed_inv. unfold pbind.
    rewrite (val_context_parse_mono _ _ _ _ _ Hm), (IH _ _ _ Hm0).
    reflexivity.
Qed.

Ltac mono :=
  unfold pbind, pret; cbv beta iota;
  repeat (match goal with
          | Hm : val_context_parse P _ _ _ = Parsed _ _ |- _ =>
              rewrite (val_context_parse_mono _ _ _ _ _ Hm); clear Hm
          | Hm : parse_all P _ _ _ = Parsed _ _ |- _ =>
              rewrite (parse_all_mono _ _ _ _ _ Hm); clear Hm
          | Hm : Object_parse_all P _ _ _ = Parsed _ _ |- _ =>
              rewrite (Object_parse_all_mono _ _ _ _ _ Hm); clear Hm
          end; cbv beta iota); try reflexivity.

Lemma parse_hook_mono self h v h' :
  parse_hook P self h = Parsed v h' -> parse_hook P' self h = Parsed v h'.
Proof.
  destruct self as [ctx body]. intros H.
  destruct body; cbn [parse_hook] in *; try exact H.
  - destruct schemas; [|exact H]. parsed_inv. mono.
  - destruct schemas; [|exact H]. parsed_inv. mono.
  - destruct schemas; [|exact H]. parsed_inv. mono.
  - unfold Nullable_parse in *. destruct schema; [|exact H].
    parsed_inv. unfold pbind. rewrite Hm. mono.
    match type of H with
    | context [match ?v with Validator _ _ => _ end] => destruct v as [actx []]
    end; parsed_inv; mono.
    match goal with
    | Hm : append_in_place _ _ _ _ = Parsed _ _ |- _ => now rewrite Hm
    end.
  - destruct item_schema as [[s|]|]; try exact H. parsed_inv. mono.
  - destruct item_schemas; [|exact H]. parsed_inv. mono.
  - destruct schemas as [[ks vs]|]; [|exact H].
    destruct ks, vs; parsed_inv; mono.
  - destruct all; [|exact H].
    destruct additional; parsed_inv; mono.
Qed.
End Monotone.

Lemma parse_mono (fuel : nat) : forall c obj h v h',
  parse fuel c obj h = Parsed v h' -> parse (S fuel) c obj h = Parsed v h'.
Proof.
  induction fuel as [|fuel IH]; intros c obj h v h' H; [discriminate|].
  remember (S fuel) as n eqn:En. rewrite En in H at 1.
  cbn [parse] in *. pbind_inv H. unfold pbind. rewrite Hm.
  destruct a as [[v0| | | | | | | | | | |]|]; try discriminate H.
  subst n. eapply parse_hook_mono; [|exact H]. exact IH.
Qed.

Lemma parse_mono_le (fuel fuel' : nat) c obj h v h' :
  fuel <= fuel' ->
  parse fuel c obj h = Parsed v h' -> parse fuel' c obj h = Parsed v h'.
Proof.
  induction 1 as [|m Hle IH]; [trivial|]. intros H. now apply parse_mono, IH.
Qed.



Lemma as_key_hashable : forall (obj : pyobj) (k : pyvalue),
  as_key obj = Some k -> hashable k = true.
Proof.
  fix IH 1. intros [v|n new|c|n call| |b|n|s|items|items|items|] k H;
    cbn [as_key] in H; try discriminate H; try (injection H as <-; reflexivity).
  revert k H. induction items as [|item items IHitems]; intros k H.
  - injection H as <-. reflexivity.
  - cbn [option_map] in H.
    destruct (as_key item) as [k0|] eqn:Hitem; [|discriminate H].
    match type of H with
    | option_map _ (match ?rest with Some _ => _ | None => _ end) = _ =>
        pose proof (fun k => IHitems k) as IHrest;
        change (forall k, option_map PTuple rest = Some k -> hashable k = true)
          in IHrest;
        clear IHitems; destruct rest as [ks|]
    end; [|discriminate H].
    injection H as <-. rewrite hashable_tuple_cons.
    rewrite (IH item k0 Hitem). cbn [andb].
    apply (IHrest (PTuple ks)). reflexivity.
Qed.

Lemma store_set_same (h : store) (c : ctx_id) (context : ValidationContext) :
  store_set h c context c = context.
Proof. unfold store_set. now rewrite Nat.eqb_refl. Qed.

Lemma store_set_other (h : store) (c c' : ctx_id) (context : ValidationContext) :
  c' <> c -> store_set h c context c' = h c'.
Proof.
  intros Hc. unfold store_set. now apply Nat.eqb_neq in Hc as ->.
Qed.






(** C8.  The context of a validator is set once, the first wins:
    [set_validation_context] stores the context in a validator that has
    none, and leaves a validator that has one as it is; [parse] of a second
    context returns the validator still bound to the first one, whose
    representation function and registries it goes on using. *)
Theorem set_validation_context_first_wins :
  (forall (body : vbody) (c : ctx_id),
      set_validation_context (Validator None body) c = Validator (Some c) body) /\
  (forall (v : validator) (c1 c2 : ctx_id),
      bound_context v = Some c1 -> set_validation_context v c2 = v) /\
  (forall (fuel : nat) (c1 c2 : ctx_id) (v v' : validator) (h h' : store),
      bound_context v = Some c1 ->
      parse fuel c2 (OValidator v) h = Parsed v' h' ->
      bound_context v' = Some c1 /\
      the_context h' (bound_context v') "repr" = Ok (h' c1) /\
      forall P schema, val_context_parse P v' schema = P c1 schema).
Proof.
  split; [reflexivity|]. split.
  - intros [[c|] body] c1 c2 H; [reflexivity | discriminate H].
  - intros fuel c1 c2 v v' h h' Hv Hparse.
    assert (Hv' : bound_context v' = Some c1).
    { destruct fuel as [|fuel]; [discriminate Hparse|].
      rewrite parse_OValidator in Hparse.
      apply parse_hook_context in Hparse. rewrite Hparse.
      destruct v as [[c|] body]; [exact Hv | discriminate Hv]. }
    split; [exact Hv'|]. split.
    + rewrite Hv'. reflexivity.
    + intros P schema. unfold val_context_parse. now rewrite Hv'.
Qed.

Lemma set_validation_context_first_wins_witness :
  set_validation_context (Validator (Some 0) Integer) 1
  = Validator (Some 0) Integer /\
  exists v h,
    parse 1 0 (OValidator (Validator None Integer)) default_store = Parsed v h /\
    exists v' h', parse 1 1 (OValidator v) h = Parsed v' h' /\
                  bound_context v' = Some 0.
Proof.
  split.
  - exact (proj1 (proj2 set_validation_context_first_wins)
             (Validator (Some 0) Integer) 0 1 eq_refl).
  - exists (Validator (Some 0) Integer), default_store. split; [reflexivity|].
    exists (Validator (Some 0) Integer), default_store. split; [reflexivity|].
    exact (proj1 (proj2 (proj2 set_validation_context_first_wins) 1 0 1
                    (Validator (Some 0) Integer) (Validator (Some 0) Integer)
                    default_store default_store eq_refl eq_refl)).
Defined.

Lemma factories_loop_first (pre : list (string * (pyobj -> option pyobj)))
  (name : string) (factory : pyobj -> option pyobj)
  (post : list (string * (pyobj -> option pyobj))) (obj validator : pyobj) :
  Forall (fun nf => snd nf obj = None) pre ->
  factory obj = Some validator ->
  factories_loop (pre ++ (name, factory) :: post) obj = Some validator.
Proof.
  intros Hpre Hf. induction Hpre as [|[n f] pre Hn _ IH]; simpl.
  - now rewrite Hf.
  - simpl in Hn. now rewrite Hn.
Qed.

Lemma _get_validator_first_factory (h : store) (c : ctx_id) (obj : pyobj)
  (pre : list (string * (pyobj -> option pyobj))) (name : string)
  (factory : pyobj -> option pyobj)
  (post : list (string * (pyobj -> option pyobj))) (validator : pyobj) :
  named_lookup (h c) obj = None ->
  iteritems (validators_factories (h c)) = pre ++ (name, factory) :: post ->
  Forall (fun nf => snd nf obj = None) pre ->
  factory obj = Some validator ->
  _get_validator c obj h = Parsed (Some validator) h.
Proof.
  intros Hname Hfactories Hpre Hfactory. unfold _get_validator.
  rewrite Hname, Hfactories.
  now rewrite (factories_loop_first pre name factory post obj validator).
Qed.

(** C1, at the failing input.  In a context with the two factories
    ["Object"] and ["Strict"], registered in this order, which both parse a
    dict, [parse({})] returns the validator of the factory registered first
    ([additional=True]), not the one of the factory registered last: the
    factories are called in the order of their registration, not in the
    reverse order, which would give the other validator. *)
Theorem parse_takes_first_registered_factory :
  let h : store := fun _ => two_factories_context in
  map fst (iteritems (validators_factories (h 0))) = ["Object"; "Strict"] /\
  named_lookup (h 0) (ODict []) = None /\
  factories_loop (rev (iteritems (validators_factories (h 0)))) (ODict [])
  = ObjectFactory (OBool false) false (ODict []) /\
  ObjectFactory (OBool true) false (ODict [])
  = Some (OValidator (Validator None
            (Object (Some []) [] [] [] (OBool true) false None))) /\
  ObjectFactory (OBool false) false (ODict [])
  = Some (OValidator (Validator None
            (Object (Some []) [] [] [] (OBool false) false None))) /\
  parse 2 0 (ODict []) h
  = Parsed (Validator (Some 0)
              (Object None [] [] [] (OBool true) false (Some []))) h.
Proof. cbv zeta. repeat split. Qed.

(** C9.  Validators are idempotent on fixed points: [Integer] returns every
    integer that is no [bool] as it is; whatever a [Type] validator accepts
    it returns unchanged, so that validating the result again gives the same
    result; [AdaptTo] returns an instance of its target class unchanged; and
    for every validator, a value that [validate] returns unchanged is
    returned unchanged again. *)
Theorem Type_validate_fixed_point (h : store) (ctx : option ctx_id) :
  (forall n : Z, validate h (Validator ctx Integer) (PInt n) = Ok (PInt n)) /\
  (forall name accept_types reject_types value adapted,
      validate h (Validator ctx (Type_ name accept_types reject_types)) value
      = Ok adapted ->
      adapted = value /\
      validate h (Validator ctx (Type_ name accept_types reject_types)) adapted
      = Ok adapted) /\
  (forall target_cls adaptor traps value,
      isinstance value [target_cls] = true ->
      validate h (Validator ctx (AdaptTo target_cls adaptor traps false)) value
      = Ok value) /\
  (forall self value adapted,
      validate h self value = Ok adapted -> adapted = value ->
      validate h self adapted = Ok adapted).
Proof.
  split; [reflexivity|]. split; [|split].
  - intros name accept_types reject_types value adapted H.
    assert (Hsame : adapted = value).
    { cbn [validate] in H. unfold Type_validate in H.
      destruct (negb (isinstance value accept_types)
                || isinstance value reject_types).
      - unfold error in H.
        destruct (humanized_name h _) in H; discriminate H.
      - now injection H as <-. }
    subst adapted. split; [reflexivity | exact H].
  - intros target_cls adaptor traps value H. cbn [validate].
    unfold AdaptTo_validate. now rewrite H.
  - intros self value adapted H ->. exact H.
Qed.

Lemma Type_validate_fixed_point_witness :
  validate default_store (Validator (Some 0) Number) (PInt 12) = Ok (PInt 12) /\
  validate default_store
    (Validator (Some 0)
       (AdaptTo CInt (fun _ => Raise (TypeError "int()")) (fun _ => true) false))
    (PInt 12) = Ok (PInt 12) /\
  validate default_store (adapt_to_constant "a") (PStr "a") = Ok (PStr "a").
Proof.
  split; [|split].
  - exact (proj2 (proj1 (proj2 (Type_validate_fixed_point default_store
                                  (Some 0)))
                    (Some "number") [CNumber] [CBool] (PInt 12) (PInt 12)
                    eq_refl)).
  - exact (proj1 (proj2 (proj2 (Type_validate_fixed_point default_store
                                  (Some 0))))
             CInt (fun _ => Raise (TypeError "int()")) (fun _ => true)
             (PInt 12) eq_refl).
  - exact (proj2 (proj2 (proj2 (Type_validate_fixed_point default_store
                                  (Some 0))))
             (adapt_to_constant "a") (PStr "a") (PStr "a") eq_refl eq_refl).
Defined.

(** *** More on the composite validators *)

Lemma ChainOf_loop_app (validate_component : validator -> pyvalue -> outcome pyvalue)
  (first second : list validator) (value : pyvalue) :
  ChainOf_validate validate_component (first ++ second) value
  = (piped <- ChainOf_validate validate_component first value ;;
     ChainOf_validate validate_component second piped).
Proof.
  revert value. induction first as [|v first IH]; intros value; simpl.
  - reflexivity.
  - destruct (validate_component v value) as [value'| |]; simpl; auto.
Qed.

(** X1.  [ChainOf] composes: a chain of the validators [first ++ second]
    validates as the chain [first] followed, on its result, by the chain
    [second]; a failure of the first chain is the failure of the whole. *)
Theorem ChainOf_validate_app (h : store) (ctx ctx1 ctx2 : option ctx_id)
  (schemas schemas1 schemas2 : option (list pyobj))
  (first second : list validator) (value : pyvalue) :
  validate h (Validator ctx (ChainOf schemas (first ++ second))) value
  = (piped <- validate h (Validator ctx1 (ChainOf schemas1 first)) value ;;
     validate h (Validator ctx2 (ChainOf schemas2 second)) piped).
Proof. cbn [validate]. apply ChainOf_loop_app. Qed.

Lemma AllOf_loop_Ok (validate_component : validator -> pyvalue -> outcome pyvalue)
  (validators : list validator) (value : pyvalue) :
  forall result,
  (exists adapted,
      AllOf_loop validate_component validators result value = Ok adapted)
  <-> Forall (fun v => exists r, validate_component v value = Ok r) validators.
Proof.
  induction validators as [|v validators IH]; intros result; simpl.
  - split; [constructor | eauto].
  - destruct (validate_component v value) as [r| |] eqn:Hv; simpl.
    + rewrite IH. split.
      * intros H. constructor; eauto.
      * intros H. now inversion H.
    + split; [intros [a Ha]; discriminate | intros H].
      inversion H as [|? ? [r Hr] _]. congruence.
    + split; [intros [a Ha]; discriminate | intros H].
      inversion H as [|? ? [r Hr] _]. congruence.
Qed.

(** X2.  [AllOf] accepts a value exactly when every component accepts it:
    [is_valid] of the [AllOf] is [True] if and only if [is_valid] of each
    component, on the same value, is [True]. *)
Theorem AllOf_is_valid_iff (h : store) (ctx : option ctx_id)
  (schemas : option (list pyobj)) (validators : list validator)
  (value : pyvalue) :
  is_valid h (Validator ctx (AllOf schemas validators)) value = Ok true
  <-> Forall (fun v => is_valid h v value = Ok true) validators.
Proof.
  assert (Hvalid : forall v, is_valid h v value = Ok true
                             <-> exists r, validate h v value = Ok r).
  { intros v. unfold is_valid. destruct (validate h v value); split;
      try discriminate; eauto; intros [r Hr]; discriminate. }
  rewrite Hvalid. cbn [validate]. unfold AllOf_validate.
  rewrite AllOf_loop_Ok. split; intros H; eapply Forall_impl; try exact H;
    intros v; apply Hvalid.
Qed.

Lemma AllOf_is_valid_iff_witness :
  Forall (fun v => is_valid default_store v (PInt 3) = Ok true)
         [Validator (Some 0) Number; Validator (Some 0) Integer] /\
  is_valid default_store
    (Validator (Some 0)
       (AllOf None [Validator (Some 0) Number; Validator (Some 0) Integer]))
    (PInt 3) = Ok true.
Proof.
  assert (H : Forall (fun v => is_valid default_store v (PInt 3) = Ok true)
                [Validator (Some 0) Number; Validator (Some 0) Integer])
    by (repeat constructor).
  split; [exact H|].
  exact (proj2 (AllOf_is_valid_iff default_store (Some 0) None
                  [Validator (Some 0) Number; Validator (Some 0) Integer]
                  (PInt 3)) H).
Defined.

Lemma AnyOf_loop_Invalid (validate_component : validator -> pyvalue -> outcome pyvalue)
  (self : validator) (validators : list validator) (value : pyvalue) :
  forall messages,
  (exists ex,
      AnyOf_loop validate_component self validators messages value = Invalid ex)
  <-> Forall (fun v => exists ex, validate_component v value = Invalid ex)
             validators.
Proof.
  induction validators as [|v validators IH]; intros messages; simpl.
  - split; [constructor | eauto].
  - destruct (validate_component v value) as [r|ex|x] eqn:Hv.
    + split; [intros [a Ha]; discriminate | intros H].
      inversion H as [|? ? [ex Hex] _]. congruence.
    + rewrite IH. split.
      * intros H. constructor; eauto.
      * intros H. now inversion H.
    + split; [intros [a Ha]; discriminate | intros H].
      inversion H as [|? ? [ex Hex] _]. congruence.
Qed.

(** X3.  [AnyOf] rejects a value (raises [ValidationError]) exactly when
    every component rejects it: [is_valid] of the [AnyOf] is [False] if and
    only if [is_valid] of each component is [False]. *)
Theorem AnyOf_is_valid_iff (h : store) (ctx : option ctx_id)
  (schemas : option (list pyobj)) (validators : list validator)
  (value : pyvalue) :
  is_valid h (Validator ctx (AnyOf schemas validators)) value = Ok false
  <-> Forall (fun v => is_valid h v value = Ok false) validators.
Proof.
  assert (Hvalid : forall v, is_valid h v value = Ok false
                             <-> exists ex, validate h v value = Invalid ex).
  { intros v. unfold is_valid. destruct (validate h v value); split;
      try discriminate; eauto; intros [r Hr]; discriminate. }
  rewrite Hvalid. cbn [validate]. unfold AnyOf_validate.
  rewrite AnyOf_loop_Invalid. split; intros H; eapply Forall_impl; try exact H;
    intros v; apply Hvalid.
Qed.

Lemma AnyOf_is_valid_iff_witness :
  Forall (fun v => is_valid default_store v (PStr "x") = Ok false)
         [Validator (Some 0) Integer;
          Validator (Some 0) (NoneValue (DefaultValue PNone))] /\
  is_valid default_store
    (Validator (Some 0)
       (AnyOf None [Validator (Some 0) Integer;
                    Validator (Some 0) (NoneValue (DefaultValue PNone))]))
    (PStr "x") = Ok false.
Proof.
  assert (H : Forall (fun v => is_valid default_store v (PStr "x") = Ok false)
                [Validator (Some 0) Integer;
                 Validator (Some 0) (NoneValue (DefaultValue PNone))])
    by (repeat constructor).
  split; [exact H|].
  exact (proj2 (AnyOf_is_valid_iff default_store (Some 0) None
                  [Validator (Some 0) Integer;
                   Validator (Some 0) (NoneValue (DefaultValue PNone))]
                  (PStr "x")) H).
Defined.

(** *** Sequences and mappings *)

Lemma error_not_Ok {A : Type} (h : store) (self : validator) (value : pyvalue)
  (a : A) : error h self value <> Ok a.
Proof.
  unfold error. destruct (humanized_name h self); discriminate.
Qed.

Lemma Type_validate_Ok (h : store) (self : validator)
  (accept_types reject_types : list pyclass) (value result : pyvalue) :
  Type_validate h self accept_types reject_types value = Ok result ->
  result = value /\ isinstance value accept_types = true /\
  isinstance value reject_types = false.
Proof.
  unfold Type_validate.
  destruct (isinstance value accept_types), (isinstance value reject_types);
    simpl; intros H; try (now apply error_not_Ok in H).
  injection H as <-. auto.
Qed.

Lemma Type_validate_accepts (h : store) (self : validator)
  (accept_types reject_types : list pyclass) (value : pyvalue) :
  isinstance value accept_types = true ->
  isinstance value reject_types = false ->
  Type_validate h self accept_types reject_types value = Ok value.
Proof. unfold Type_validate. now intros -> ->. Qed.

Lemma sequence_is_list_or_tuple (value : pyvalue) :
  isinstance value [CSequence] = true -> isinstance value [CStr] = false ->
  is_list_or_tuple value = true.
Proof. destruct value; simpl; congruence. Qed.

Lemma list_or_tuple_is_sequence (value : pyvalue) :
  is_list_or_tuple value = true ->
  isinstance value [CSequence] = true /\ isinstance value [CStr] = false.
Proof. destruct value; simpl; try discriminate; auto. Qed.

Lemma seq_rebuild_facts (value : pyvalue) (items : list pyvalue) :
  is_list_or_tuple value = true ->
  class_of (seq_rebuild value items) = class_of value /\
  seq_items (seq_rebuild value items) = items.
Proof. destruct value; simpl; try discriminate; auto. Qed.

Section SequenceLoops.
Variable validate_component : validator -> pyvalue -> outcome pyvalue.

Lemma validate_at_Ok (v : validator) (item path_item adapted : pyvalue) :
  validate_at validate_component v item path_item = Ok adapted <->
  validate_component v item = Ok adapted.
Proof.
  unfold validate_at. destruct (validate_component v item); split; congruence.
Qed.

Lemma Homogeneous_iter_Ok (v : validator) (items : list pyvalue) :
  forall i adapted,
  Homogeneous_iter validate_component v i items = Ok adapted ->
  Forall2 (fun item r => validate_component v item = Ok r) items adapted.
Proof.
  induction items as [|item items IH]; intros i adapted H; simpl in H.
  - injection H as <-. constructor.
  - destruct (validate_at validate_component v item (PInt i)) as [r| |] eqn:Hr;
      try discriminate H. simpl in H.
    destruct (Homogeneous_iter validate_component v (i + 1) items)
      as [rs| |] eqn:Hrs; try discriminate H. simpl in H.
    injection H as <-. constructor; [now apply validate_at_Ok in Hr | eauto].
Qed.

Lemma Homogeneous_iter_failure (v : validator) (pre : list pyvalue)
  (item : pyvalue) (post : list pyvalue) (ex : ValidationError) :
  Forall (fun x => exists r, validate_component v x = Ok r) pre ->
  validate_component v item = Invalid ex ->
  forall i,
  Homogeneous_iter validate_component v i (pre ++ item :: post)
  = Invalid (add_error_path_item ex (PInt (i + Z.of_nat (length pre)))).
Proof.
  intros Hpre Hitem. induction Hpre as [|x pre [r Hx] _ IH]; intros i.
  - cbn [app Homogeneous_iter length]. unfold validate_at. rewrite Hitem.
    cbn [bind Z.of_nat]. now rewrite Z.add_0_r.
  - cbn [app Homogeneous_iter length]. unfold validate_at at 1. rewrite Hx.
    cbn [bind]. rewrite IH. cbn [bind].
    do 3 f_equal. lia.
Qed.

Lemma Heterogeneous_iter_Ok (validators : list validator) :
  forall items i adapted,
  length items = length validators ->
  Heterogeneous_iter validate_component validators i items = Ok adapted ->
  Forall2 (fun vi r => validate_component (fst vi) (snd vi) = Ok r)
          (combine validators items) adapted.
Proof.
  induction validators as [|v validators IH]; intros items i adapted Hlen H.
  - destruct items; [|discriminate Hlen]. injection H as <-. constructor.
  - destruct items as [|item items]; [discriminate Hlen|].
    cbn [Heterogeneous_iter] in H.
    destruct (validate_at validate_component v item (PInt i)) as [r| |] eqn:Hr;
      try discriminate H. cbn [bind] in H.
    destruct (Heterogeneous_iter validate_component validators (i + 1) items)
      as [rs| |] eqn:Hrs; try discriminate H. cbn [bind] in H.
    injection H as <-. cbn [combine]. constructor.
    + now apply validate_at_Ok in Hr.
    + eapply IH; [|exact Hrs]. now injection Hlen.
Qed.
End SequenceLoops.

Lemma within_bounds_checks (min max : option Z) (n : Z) :
  within_bounds min max n = true <->
  match min with Some m => (n <? m)%Z = false | None => True end /\
  match max with Some m => (n >? m)%Z = false | None => True end.
Proof.
  unfold within_bounds. rewrite andb_true_iff.
  destruct min, max; rewrite ?Z.leb_le, ?Z.ltb_ge, ?Z.gtb_ltb, ?Z.ltb_ge;
    intuition.
Qed.

Lemma HomogeneousSequence_checks (h : store) (self : validator)
  (min_length max_length : option Z) (value : pyvalue) :
  is_list_or_tuple value = true ->
  within_bounds min_length max_length (py_len value) = true ->
  forall item_validator,
  HomogeneousSequence_validate (validate h) h self min_length max_length
    item_validator value
  = match item_validator with
    | None => Ok value
    | Some v =>
        items <- Homogeneous_iter (validate h) v 0%Z (seq_items value) ;;
        Ok (seq_rebuild value items)
    end.
Proof.
  intros Hseq Hbounds item_validator.
  apply list_or_tuple_is_sequence in Hseq as [Hs1 Hs2].
  apply within_bounds_checks in Hbounds as [Hmin Hmax].
  unfold HomogeneousSequence_validate.
  rewrite Type_validate_accepts by assumption. cbn [bind].
  destruct min_length; [rewrite Hmin|]; cbn [bind];
    (destruct max_length; [rewrite Hmax|]; reflexivity).
Qed.

(** X4.  What [HomogeneousSequence] returns for a list or a tuple: when
    [validate], with an item validator, accepts it, its length is within the
    bounds, and the result is a sequence of the same class and the same
    length whose items are, position by position, what the item validator
    returns on the items of the value. *)
Theorem HomogeneousSequence_accepts_shape (h : store) (ctx : option ctx_id)
  (item_schema : option (option pyobj)) (min_length max_length : option Z)
  (item_validator : validator) (value result : pyvalue) :
  is_list_or_tuple value = true ->
  validate h (Validator ctx
                (HomogeneousSequence item_schema min_length max_length
                                     (Some item_validator))) value
  = Ok result ->
  within_bounds min_length max_length (py_len value) = true /\
  class_of result = class_of value /\
  Forall2 (fun item adapted => validate h item_validator item = Ok adapted)
          (seq_items value) (seq_items result).
Proof.
  cbn [validate]. intros Hseq H.
  assert (Hbounds : within_bounds min_length max_length (py_len value) = true).
  { unfold HomogeneousSequence_validate in H.
    destruct (Type_validate h _ [CSequence] [CStr] value) as [r| |] eqn:Htype;
      try discriminate H.
    cbn [bind] in H. apply within_bounds_checks.
    destruct min_length as [m|], max_length as [m'|];
      repeat match type of H with
             | context [(?a <? ?b)%Z] => destruct (a <? b)%Z eqn:?
             | context [(?a >? ?b)%Z] => destruct (a >? b)%Z eqn:?
             end; cbn [bind] in H; try discriminate H; auto. }
  rewrite HomogeneousSequence_checks in H by assumption.
  destruct (Homogeneous_iter (validate h) item_validator 0 (seq_items value))
    as [items| |] eqn:Hitems; try discriminate H.
  cbn [bind] in H. injection H as <-.
  destruct (seq_rebuild_facts value items Hseq) as [Hclass Hitems'].
  repeat split; auto.
  rewrite Hitems'. now apply Homogeneous_iter_Ok in Hitems.
Qed.

Lemma HomogeneousSequence_accepts_shape_witness :
  let value := PTuple [PInt 1; PInt 2] in
  let result := PTuple [PStr "item"; PStr "item"] in
  within_bounds (Some 1%Z) (Some 2%Z) (py_len value) = true /\
  class_of result = class_of value /\
  Forall2 (fun item adapted =>
             validate default_store (adapt_to_constant "item") item = Ok adapted)
          (seq_items value) (seq_items result).
Proof.
  exact (HomogeneousSequence_accepts_shape default_store (Some 0) None
           (Some 1%Z) (Some 2%Z) (adapt_to_constant "item")
           (PTuple [PInt 1; PInt 2]) (PTuple [PStr "item"; PStr "item"])
           eq_refl eq_refl).
Defined.

(** X5.  The failure of an item in [HomogeneousSequence]: for a list or a
    tuple whose length is within the bounds, when the item validator accepts
    the items before position [i] and rejects the item at position [i],
    [validate] raises the [ValidationError] of that item with the index [i]
    appended to its path; the items after it are not looked at. *)
Theorem HomogeneousSequence_first_failure (h : store) (ctx : option ctx_id)
  (item_schema : option (option pyobj)) (min_length max_length : option Z)
  (item_validator : validator) (value : pyvalue)
  (pre : list pyvalue) (item : pyvalue) (post : list pyvalue)
  (ex : ValidationError) :
  is_list_or_tuple value = true ->
  seq_items value = pre ++ item :: post ->
  within_bounds min_length max_length (py_len value) = true ->
  Forall (fun x => exists r, validate h item_validator x = Ok r) pre ->
  validate h item_validator item = Invalid ex ->
  validate h (Validator ctx
                (HomogeneousSequence item_schema min_length max_length
                                     (Some item_validator))) value
  = Invalid (add_error_path_item ex (PInt (Z.of_nat (length pre)))).
Proof.
  intros Hseq Hitems Hbounds Hpre Hitem. cbn [validate].
  rewrite HomogeneousSequence_checks by assumption.
  rewrite Hitems, (Homogeneous_iter_failure (validate h) item_validator pre
                     item post ex Hpre Hitem).
  reflexivity.
Qed.

Lemma HomogeneousSequence_first_failure_witness :
  validate default_store
    (Validator (Some 0)
       (HomogeneousSequence None None None (Some (Validator (Some 0) Integer))))
    (PList [PInt 1; PStr "a"; PStr "b"])
  = Invalid (mkValidationError (Some 0) "must be integer" (Some (PStr "a"))
               [PInt 1]).
Proof.
  apply (HomogeneousSequence_first_failure default_store (Some 0) None None None
           (Validator (Some 0) Integer) (PList [PInt 1; PStr "a"; PStr "b"])
           [PInt 1] (PStr "a") [PStr "b"]
           (mkValidationError (Some 0) "must be integer" (Some (PStr "a")) [])).
  - reflexivity.
  - reflexivity.
  - reflexivity.
  - repeat constructor. exists (PInt 1). reflexivity.
  - reflexivity.
Defined.

(** X6.  [HeterogeneousSequence]: a list or tuple whose length differs from
    the number of item validators is rejected with the message
    ["N items expected, M found"], before any item is validated; and when
    [validate] accepts a value, the value has as many items as there are
    validators and the result is a sequence of the same class whose items
    are what each validator returns on the item at its position. *)
Theorem HeterogeneousSequence_arity (h : store) (ctx : option ctx_id)
  (item_schemas : option (list pyobj)) (item_validators : list validator)
  (value : pyvalue) :
  let self := Validator ctx (HeterogeneousSequence item_schemas item_validators) in
  (is_list_or_tuple value = true ->
   length (seq_items value) <> length item_validators ->
   validate h self value
   = Invalid (mkValidationError ctx
                (string_of_Z (Z.of_nat (length item_validators)) +:+
                 " items expected, " +:+
                 string_of_Z (Z.of_nat (length (seq_items value))) +:+ " found")
                (Some value) [])) /\
  (forall result,
      validate h self value = Ok result ->
      is_list_or_tuple value = true /\
      length (seq_items value) = length item_validators /\
      class_of result = class_of value /\
      Forall2 (fun vi adapted => validate h (fst vi) (snd vi) = Ok adapted)
              (combine item_validators (seq_items value)) (seq_items result)).
Proof.
  cbv zeta. cbn [validate]. unfold HeterogeneousSequence_validate.
  assert (Hlen : is_list_or_tuple value = true ->
                 py_len value = Z.of_nat (length (seq_items value))).
  { destruct value; simpl; try discriminate; reflexivity. }
  split.
  - intros Hseq Hne. rewrite (Hlen Hseq).
    apply list_or_tuple_is_sequence in Hseq as [Hs1 Hs2].
    rewrite Type_validate_accepts by assumption. cbn [bind].
    destruct (Z.eqb_spec (Z.of_nat (length (seq_items value)))
                (Z.of_nat (length item_validators))) as [E|E].
    + apply Nat2Z.inj in E. contradiction.
    + reflexivity.
  - intros result H.
    destruct (Type_validate h _ [CSequence] [CStr] value) as [r| |] eqn:Htype;
      try discriminate H.
    apply Type_validate_Ok in Htype as (_ & Hs1 & Hs2).
    pose proof (sequence_is_list_or_tuple value Hs1 Hs2) as Hseq.
    cbn [bind] in H. rewrite (Hlen Hseq) in H.
    destruct (Z.eqb_spec (Z.of_nat (length (seq_items value)))
                (Z.of_nat (length item_validators))) as [E|E];
      [|discriminate H].
    apply Nat2Z.inj in E. cbn [negb] in H.
    destruct (Heterogeneous_iter (validate h) item_validators 0
                (seq_items value)) as [items| |] eqn:Hitems;
      try discriminate H.
    cbn [bind] in H. injection H as <-.
    destruct (seq_rebuild_facts value items Hseq) as [Hclass Hitems'].
    repeat split; auto.
    rewrite Hitems'. now apply Heterogeneous_iter_Ok in Hitems.
Qed.

Lemma HeterogeneousSequence_arity_witness :
  let pair :=
    Validator (Some 0)
      (HeterogeneousSequence None
         [Validator (Some 0) Integer; adapt_to_constant "second"]) in
  validate default_store pair (PList [PInt 1])
  = Invalid (mkValidationError (Some 0) "2 items expected, 1 found"
               (Some (PList [PInt 1])) []) /\
  (is_list_or_tuple (PTuple [PInt 1; PNone]) = true /\
   length (seq_items (PTuple [PInt 1; PNone])) = 2 /\
   class_of (PTuple [PInt 1; PStr "second"]) = class_of (PTuple [PInt 1; PNone]) /\
   Forall2 (fun vi adapted =>
              validate default_store (fst vi) (snd vi) = Ok adapted)
           [(Validator (Some 0) Integer, PInt 1);
            (adapt_to_constant "second", PNone)]
           [PInt 1; PStr "second"]).
Proof.
  cbv zeta. split.
  - apply (proj1 (HeterogeneousSequence_arity default_store (Some 0) None
                    [Validator (Some 0) Integer; adapt_to_constant "second"]
                    (PList [PInt 1]))).
    + reflexivity.
    + simpl. lia.
  - exact (proj2 (HeterogeneousSequence_arity default_store (Some 0) None
                    [Validator (Some 0) Integer; adapt_to_constant "second"]
                    (PTuple [PInt 1; PNone]))
             (PTuple [PInt 1; PStr "second"]) eq_refl).
Defined.

Lemma Mapping_iter_Ok (h : store) (key_validator value_validator : option validator)
  (items : dict) :
  forall pairs,
  Mapping_iter (validate h) key_validator value_validator items = Ok pairs ->
  Forall2 (fun item pair =>
             validates_with h key_validator (fst item) (fst pair) /\
             validates_with h value_validator (snd item) (snd pair))
          items pairs.
Proof.
  induction items as [|[k v] items IH]; intros pairs H; cbn [Mapping_iter] in H.
  - injection H as <-. constructor.
  - destruct value_validator as [vv|].
    + destruct (validate_at (validate h) vv v k) as [v'| |] eqn:Hv;
        try discriminate H. cbn [bind] in H. apply validate_at_Ok in Hv.
      destruct key_validator as [kv|].
      * destruct (validate h kv k) as [k'| |] eqn:Hk; try discriminate H.
        cbn [bind] in H.
        destruct (Mapping_iter (validate h) (Some kv) (Some vv) items)
          as [rest| |] eqn:Hrest; try discriminate H.
        cbn [bind] in H. injection H as <-. constructor; [split; auto | auto].
      * cbn [bind] in H.
        destruct (Mapping_iter (validate h) None (Some vv) items)
          as [rest| |] eqn:Hrest; try discriminate H.
        cbn [bind] in H. injection H as <-.
        constructor; [split; simpl; auto | auto].
    + cbn [bind] in H. destruct key_validator as [kv|].
      * destruct (validate h kv k) as [k'| |] eqn:Hk; try discriminate H.
        cbn [bind] in H.
        destruct (Mapping_iter (validate h) (Some kv) None items)
          as [rest| |] eqn:Hrest; try discriminate H.
        cbn [bind] in H. injection H as <-.
        constructor; [split; simpl; auto | auto].
      * cbn [bind] in H.
        destruct (Mapping_iter (validate h) None None items)
          as [rest| |] eqn:Hrest; try discriminate H.
        cbn [bind] in H. injection H as <-.
        constructor; [split; simpl; auto | auto].
Qed.

Lemma Mapping_iter_step (h : store) (key_validator value_validator : option validator)
  (k v k' v' : pyvalue) (items : dict) :
  validates_with h key_validator k k' ->
  validates_with h value_validator v v' ->
  Mapping_iter (validate h) key_validator value_validator ((k, v) :: items)
  = (rest <- Mapping_iter (validate h) key_validator value_validator items ;;
     Ok ((k', v') :: rest)).
Proof.
  intros Hk Hv. cbn [Mapping_iter].
  destruct value_validator as [vv|]; simpl in Hv.
  - unfold validate_at. rewrite Hv. cbn [bind].
    destruct key_validator as [kv|]; simpl in Hk.
    + now rewrite Hk.
    + now subst.
  - subst v'. cbn [bind]. destruct key_validator as [kv|]; simpl in Hk.
    + now rewrite Hk.
    + now subst.
Qed.

Lemma Mapping_iter_prefix (h : store) (key_validator value_validator : option validator)
  (pre : dict) (rest : dict) (failure : ValidationError) :
  Forall (fun item => exists k' v',
            validates_with h key_validator (fst item) k' /\
            validates_with h value_validator (snd item) v') pre ->
  Mapping_iter (validate h) key_validator value_validator rest = Invalid failure ->
  Mapping_iter (validate h) key_validator value_validator (pre ++ rest)
  = Invalid failure.
Proof.
  intros Hpre Hrest.
  induction Hpre as [|[k v] pre (k' & v' & Hk & Hv) _ IH]; [exact Hrest|].
  cbn [app]. rewrite (Mapping_iter_step h _ _ k v k' v' _ Hk Hv), IH.
  reflexivity.
Qed.

Lemma Mapping_validate_dict (h : store) (self : validator)
  (key_validator value_validator : option validator) (items : dict) :
  Mapping_validate (validate h) h self key_validator value_validator
    (PDict items)
  = (pairs <- Mapping_iter (validate h) key_validator value_validator items ;;
     Ok (PDict (dict_of_pairs pairs))).
Proof. reflexivity. Qed.

(** X7.  What [Mapping] returns for a dict: when [validate] accepts it, the
    result is the dict built, in the order of the items, from the pairs of
    the validated key and the validated value of each item (a key or a value
    without validator being taken as it is). *)
Theorem Mapping_accepts_shape (h : store) (ctx : option ctx_id)
  (schemas : option (option pyobj * option pyobj))
  (key_validator value_validator : option validator)
  (items : dict) (result : pyvalue) :
  validate h (Validator ctx (Mapping schemas key_validator value_validator))
           (PDict items) = Ok result ->
  exists pairs,
    result = PDict (dict_of_pairs pairs) /\
    Forall2 (fun item pair =>
               validates_with h key_validator (fst item) (fst pair) /\
               validates_with h value_validator (snd item) (snd pair))
            items pairs.
Proof.
  cbn [validate]. intros H. rewrite Mapping_validate_dict in H.
  destruct (Mapping_iter (validate h) key_validator value_validator items)
    as [pairs| |] eqn:Hpairs; try discriminate H.
  cbn [bind] in H. injection H as <-.
  exists pairs. split; [reflexivity|]. now apply Mapping_iter_Ok.
Qed.

Lemma Mapping_accepts_shape_witness :
  let key_validator := Some (Validator (Some 0) (String_ None None)) in
  let value_validator := Some (adapt_to_constant "seen") in
  exists pairs,
    PDict [(PStr "a", PStr "seen"); (PStr "b", PStr "seen")]
    = PDict (dict_of_pairs pairs) /\
    Forall2 (fun item pair =>
               validates_with default_store key_validator (fst item) (fst pair) /\
               validates_with default_store value_validator (snd item) (snd pair))
            [(PStr "a", PInt 1); (PStr "b", PInt 2)] pairs.
Proof.
  exact (Mapping_accepts_shape default_store (Some 0) None
           (Some (Validator (Some 0) (String_ None None)))
           (Some (adapt_to_constant "seen"))
           [(PStr "a", PInt 1); (PStr "b", PInt 2)]
           (PDict [(PStr "a", PStr "seen"); (PStr "b", PStr "seen")])
           eq_refl).
Defined.

(** X8.  The first failure in [Mapping]: when the items before an item
    [(k, v)] validate, a [ValidationError] of the value validator on [v] is
    raised with the key [k] appended to its path, whereas a
    [ValidationError] of the key validator on [k] (the value being valid) is
    raised as it is, without path segment. *)
Theorem Mapping_first_failure (h : store) (ctx : option ctx_id)
  (schemas : option (option pyobj * option pyobj))
  (key_validator value_validator : option validator)
  (pre : dict) (k v : pyvalue) (post : dict) (ex : ValidationError) :
  let self := Validator ctx (Mapping schemas key_validator value_validator) in
  Forall (fun item => exists k' v',
            validates_with h key_validator (fst item) k' /\
            validates_with h value_validator (snd item) v') pre ->
  (forall vv, value_validator = Some vv -> validate h vv v = Invalid ex ->
     validate h self (PDict (pre ++ (k, v) :: post))
     = Invalid (add_error_path_item ex k)) /\
  (forall kv v', key_validator = Some kv ->
     validates_with h value_validator v v' ->
     validate h kv k = Invalid ex ->
     validate h self (PDict (pre ++ (k, v) :: post)) = Invalid ex).
Proof.
  cbv zeta. intros Hpre. cbn [validate]. split.
  - intros vv -> Hv. rewrite Mapping_validate_dict.
    rewrite (Mapping_iter_prefix h key_validator (Some vv) pre _
               (add_error_path_item ex k) Hpre); [reflexivity|].
    cbn [Mapping_iter]. unfold validate_at. now rewrite Hv.
  - intros kv v' -> Hv Hk. rewrite Mapping_validate_dict.
    rewrite (Mapping_iter_prefix h (Some kv) value_validator pre _ ex Hpre);
      [reflexivity|].
    cbn [Mapping_iter]. destruct value_validator as [vv|]; simpl in Hv.
    + unfold validate_at. rewrite Hv. cbn [bind]. now rewrite Hk.
    + cbn [bind]. now rewrite Hk.
Qed.

Lemma Mapping_first_failure_witness :
  let mapping :=
    Validator (Some 0)
      (Mapping None (Some (Validator (Some 0) (String_ None None)))
               (Some (Validator (Some 0) Integer))) in
  validate default_store mapping
    (PDict [(PStr "a", PInt 1); (PStr "b", PStr "x"); (PInt 3, PNone)])
  = Invalid (mkValidationError (Some 0) "must be integer" (Some (PStr "x"))
               [PStr "b"]) /\
  validate default_store mapping
    (PDict [(PStr "a", PInt 1); (PInt 3, PInt 2); (PStr "c", PNone)])
  = Invalid (mkValidationError (Some 0) "must be string" (Some (PInt 3)) []).
Proof.
  cbv zeta.
  assert (Hpre : Forall (fun item => exists k' v',
            validates_with default_store
              (Some (Validator (Some 0) (String_ None None))) (fst item) k' /\
            validates_with default_store
              (Some (Validator (Some 0) Integer)) (snd item) v')
            [(PStr "a", PInt 1)]).
  { repeat constructor. exists (PStr "a"), (PInt 1). split; reflexivity. }
  split.
  - exact (proj1 (Mapping_first_failure default_store (Some 0) None
                    (Some (Validator (Some 0) (String_ None None)))
                    (Some (Validator (Some 0) Integer))
                    [(PStr "a", PInt 1)] (PStr "b") (PStr "x") [(PInt 3, PNone)]
                    (mkValidationError (Some 0) "must be integer"
                       (Some (PStr "x")) [])
                    Hpre)
             (Validator (Some 0) Integer) eq_refl eq_refl).
  - exact (proj2 (Mapping_first_failure default_store (Some 0) None
                    (Some (Validator (Some 0) (String_ None None)))
                    (Some (Validator (Some 0) Integer))
                    [(PStr "a", PInt 1)] (PInt 3) (PInt 2) [(PStr "c", PNone)]
                    (mkValidationError (Some 0) "must be string"
                       (Some (PInt 3)) [])
                    Hpre)
             (Validator (Some 0) (String_ None None)) (PInt 2)
             eq_refl eq_refl eq_refl).
Defined.

(** *** More on [Object] *)

Lemma keys_distinct_head (k : pyvalue) (rest : list pyvalue) (k' : pyvalue) :
  hashable k = true -> keys_distinct (k :: rest) = true -> In k' rest ->
  py_eqb k' k = false.
Proof.
  intros Hk Hd Hin. simpl in Hd. apply andb_prop in Hd as [Hd _].
  apply negb_true_iff in Hd. rewrite py_in_false in Hd.
  rewrite <- py_eqb_sym by assumption. auto.
Qed.

Lemma Object_properties_entries
  (validate_component : validator -> pyvalue -> outcome pyvalue)
  (od : list (pyvalue * pydefault)) (rk : list pyvalue) (ign : bool)
  (value : dict) (named : list (pyvalue * validator)) :
  forallb hashable (map fst named) = true ->
  keys_distinct (map fst named) = true ->
  forall result r0,
  keys_distinct (map fst result) = true ->
  Object_properties validate_component od rk ign named value result = Ok r0 ->
  forall name v, In (name, v) named ->
    match lookup name value with
    | Some item =>
        (exists adapted, validate_component v item = Ok adapted /\
                         lookup name r0 = Some adapted) \/
        (exists ex, validate_component v item = Invalid ex /\ ign = true /\
                    py_in name rk = false /\ lookup name r0 = None)
    | None =>
        match lookup name od with
        | Some d => exists x, apply_default d = Ok x /\ lookup name r0 = Some x
        | None => lookup name r0 = lookup name result
        end
    end.
Proof.
  induction named as [|[name0 v0] rest IH];
    intros Hh Hd result r0 Hresult H name v Hin; [destruct Hin|].
  cbn [map fst] in Hh, Hd. pose proof Hd as Hdall.
  cbn [forallb] in Hh. apply andb_prop in Hh as [Hname0 Hrest].
  cbn [keys_distinct] in Hd. apply andb_prop in Hd as [Hfresh Hdrest].
  apply negb_true_iff in Hfresh.
  cbn [Object_properties] in H.
  (* the state after the first property, and what the rest does to it *)
  assert (Hstep : forall result',
            keys_distinct (map fst result') = true ->
            Object_properties validate_component od rk ign rest value result'
            = Ok r0 ->
            lookup name0 r0 = lookup name0 result' /\
            (forall name v, In (name, v) rest ->
               match lookup name value with
               | Some item =>
                   (exists adapted, validate_component v item = Ok adapted /\
                                    lookup name r0 = Some adapted) \/
                   (exists ex, validate_component v item = Invalid ex /\
                               ign = true /\ py_in name rk = false /\
                               lookup name r0 = None)
               | None =>
                   match lookup name od with
                   | Some d => exists x, apply_default d = Ok x /\
                                         lookup name r0 = Some x
                   | None => lookup name r0 = lookup name result'
                   end
               end)).
  { intros result' Hresult' Hrun. split.
    - destruct (Object_properties_invariant validate_component od rk ign rest
                  value Hrest result' r0 Hrun) as [Hsame _].
      now apply Hsame.
    - intros name' v' Hin'. now apply (IH Hrest Hdrest result' r0). }
  assert (Hother : forall name' v', In (name', v') rest ->
                                    py_eqb name' name0 = false).
  { intros name' v' Hin'. apply (keys_distinct_head name0 (map fst rest));
      auto. change name' with (fst (name', v')). now apply in_map. }
  destruct (lookup name0 value) as [item0|] eqn:Hitem0.
  - destruct (validate_component v0 item0) as [adapted|ex|x] eqn:Hv0;
      [| |discriminate H].
    + destruct (Hstep (assign name0 adapted result)) as [Hhead Htail]; auto.
      { rewrite keys_assign.
        destruct (py_in name0 (map fst result)) eqn:E; [assumption|].
        now apply keys_distinct_snoc. }
      destruct Hin as [Heq|Hin].
      * injection Heq as <- <-. rewrite Hitem0. left. exists adapted.
        split; [exact Hv0|]. rewrite Hhead.
        apply lookup_assign_eq; auto. now apply py_eqb_refl.
      * specialize (Htail name v Hin).
        destruct (lookup name value); [exact Htail|].
        destruct (lookup name od); [exact Htail|].
        rewrite Htail. apply lookup_assign_neq; eauto.
    + destruct (negb ign || py_in name0 rk) eqn:Hcond; [discriminate H|].
      apply orb_false_iff in Hcond as [Hign Hreq].
      apply negb_false_iff in Hign.
      destruct (delete name0 result) as [result'|] eqn:Hdel; [|discriminate H].
      destruct (Hstep result') as [Hhead Htail]; auto.
      { destruct (keys_delete _ _ _ Hdel) as (l1 & k0 & l2 & H1 & H2 & _).
        rewrite H1 in Hresult. rewrite H2.
        now apply (keys_distinct_app_remove l1 k0 l2). }
      destruct Hin as [Heq|Hin].
      * injection Heq as <- <-. rewrite Hitem0. right. exists ex.
        repeat split; auto. rewrite Hhead.
        apply (lookup_delete_eq name0 name0 result result'); auto.
        now apply py_eqb_refl.
      * specialize (Htail name v Hin).
        destruct (lookup name value); [exact Htail|].
        destruct (lookup name od); [exact Htail|].
        rewrite Htail. apply (lookup_delete_neq name0); eauto.
  - destruct (lookup name0 od) as [d0|] eqn:Hdef0.
    + destruct (apply_default d0) as [x| |] eqn:Hx; try discriminate H.
      cbn [bind] in H.
      destruct (Hstep (assign name0 x result)) as [Hhead Htail]; auto.
      { rewrite keys_assign.
        destruct (py_in name0 (map fst result)) eqn:E; [assumption|].
        now apply keys_distinct_snoc. }
      destruct Hin as [Heq|Hin].
      * injection Heq as <- <-. rewrite Hitem0, Hdef0. exists x.
        split; [exact Hx|]. rewrite Hhead.
        apply lookup_assign_eq; auto. now apply py_eqb_refl.
      * specialize (Htail name v Hin).
        destruct (lookup name value); [exact Htail|].
        destruct (lookup name od); [exact Htail|].
        rewrite Htail. apply lookup_assign_neq; eauto.
    + destruct (Hstep result) as [Hhead Htail]; auto.
      destruct Hin as [Heq|Hin].
      * injection Heq as <- <-. now rewrite Hitem0, Hdef0.
      * exact (Htail name v Hin).
Qed.

Lemma Object_remove_keeps (extras : list pyvalue) :
  forallb hashable extras = true ->
  forall result r, Object_remove extras result = Ok r ->
  forall k, py_in k extras = false -> lookup k r = lookup k result.
Proof.
  induction extras as [|e rest IH]; intros Hh result r H k Hk.
  - now injection H as <-.
  - cbn [forallb] in Hh. apply andb_prop in Hh as [He Hrest].
    cbn [Object_remove] in H.
    destruct (delete e result) as [result'|] eqn:Hdel; [|discriminate H].
    unfold py_in in Hk. cbn [existsb] in Hk.
    apply orb_false_iff in Hk as [Hk1 Hk2].
    rewrite (IH Hrest result' r H k Hk2). now apply (lookup_delete_neq e).
Qed.

Lemma Object_additional_keeps
  (validate_component : validator -> pyvalue -> outcome pyvalue)
  (additional : validator) (value : dict) (extras : list pyvalue) :
  forallb hashable extras = true ->
  forall result r,
  Object_additional validate_component additional extras value result = Ok r ->
  forall k, py_in k extras = false -> lookup k r = lookup k result.
Proof.
  induction extras as [|e rest IH]; intros Hh result r H k Hk.
  - now injection H as <-.
  - cbn [forallb] in Hh. apply andb_prop in Hh as [He Hrest].
    cbn [Object_additional] in H.
    destruct (lookup e value) as [item|]; [|discriminate H].
    destruct (validate_at validate_component additional item e)
      as [adapted| |]; try discriminate H.
    cbn [bind] in H. unfold py_in in Hk. cbn [existsb] in Hk.
    apply orb_false_iff in Hk as [Hk1 Hk2].
    rewrite (IH Hrest _ r H k Hk2). now apply lookup_assign_neq.
Qed.

Lemma Object_handle_additional_declared (h : store) (self : validator)
  (all_keys : list pyvalue) (additional : pyobj) (items r0 r : dict) :
  well_formed_dict items = true ->
  Object_handle_additional (validate h) h self all_keys additional items r0
  = Ok r ->
  forall k, py_in k all_keys = true -> lookup k r = lookup k r0.
Proof.
  intros Hwf H k Hk.
  destruct (additional_properties_facts all_keys items Hwf) as (Hh & _ & Hfacts).
  assert (Hout : py_in k (additional_properties all_keys items) = false).
  { apply (declared_not_additional all_keys); auto.
    intros e He. now apply Hfacts. }
  unfold Object_handle_additional in H.
  destruct (additional_properties all_keys items) as [|e extras] eqn:Hextras.
  - destruct additional as [| | | | |[]| | | | | |]; now injection H as <-.
  - destruct additional as [a| | | | |[]| | | | | |]; try discriminate H.
    + now apply (Object_additional_keeps (validate h) a items (e :: extras) Hh
                   r0 r H).
    + now injection H as <-.
    + destruct (the_context h (bound_context self) "repr"); discriminate H.
    + now apply (Object_remove_keeps (e :: extras) Hh r0 r H).
Qed.

Lemma Object_validate_Ok (h : store) (ctx : option ctx_id)
  (all : option (list (pyvalue * pyobj)))
  (od : list (pyvalue * pydefault)) (rk ak : list pyvalue)
  (additional : pyobj) (ign : bool) (named : list (pyvalue * validator))
  (items r : dict) :
  let self := Validator ctx (Object all od rk ak additional ign (Some named)) in
  validate h self (PDict items) = Ok (PDict r) ->
  missing_required rk items = [] /\
  exists r0,
    Object_properties (validate h) od rk ign named items items = Ok r0 /\
    Object_handle_additional (validate h) h self ak additional items r0 = Ok r.
Proof.
  cbv zeta. cbn [validate]. unfold Object_validate, Type_validate.
  cbn [isinstance existsb class_of issubclass pyclass_eqb orb negb bind
       dict_items].
  destruct (missing_required rk items) as [|k rest].
  - intros H. split; [reflexivity|].
    destruct (Object_properties (validate h) od rk ign named items items)
      as [r0| |]; try discriminate H.
    cbn [bind] in H. exists r0. split; [reflexivity|].
    destruct (Object_handle_additional (validate h) h _ ak additional items r0)
      as [r'| |]; try discriminate H.
    cbn [bind] in H. now injection H as <-.
  - intros H. destruct ctx; discriminate H.
Qed.

(** X9.  What [Object] returns for a declared property that the input has:
    when [validate] returns a dict, each declared key of the input either
    holds what its validator returns on the value of the input, or, if the
    validator rejects that value, is absent from the result, which happens
    only with [ignore_optional_errors] and for a key that is not required.
    (The declared keys are distinct; the input is a dict.) *)
Theorem Object_present_property (h : store) (ctx : option ctx_id)
  (all : option (list (pyvalue * pyobj)))
  (od : list (pyvalue * pydefault)) (rk ak : list pyvalue)
  (additional : pyobj) (ign : bool) (named : list (pyvalue * validator))
  (items r : dict) (name : pyvalue) (v : validator) (item : pyvalue) :
  well_formed_dict items = true ->
  forallb hashable ak = true ->
  keys_distinct ak = true ->
  map fst named = ak ->
  validate h (Validator ctx (Object all od rk ak additional ign (Some named)))
           (PDict items) = Ok (PDict r) ->
  In (name, v) named ->
  lookup name items = Some item ->
  (exists adapted, validate h v item = Ok adapted /\
                   lookup name r = Some adapted) \/
  (exists ex, validate h v item = Invalid ex /\ ign = true /\
              py_in name rk = false /\ lookup name r = None).
Proof.
  intros Hwf Hh Hd Hnamed H Hin Hitem.
  apply Object_validate_Ok in H as (_ & r0 & Hprops & Hadd).
  assert (Hdeclared : py_in name ak = true).
  { rewrite <- Hnamed. apply In_py_in; [now rewrite Hnamed|].
    change name with (fst (name, v)). now apply in_map. }
  rewrite (Object_handle_additional_declared h _ ak additional items r0 r Hwf
             Hadd name Hdeclared).
  rewrite <- Hnamed in Hh, Hd.
  pose proof (Object_properties_entries (validate h) od rk ign items named Hh Hd
                items r0) as Hentries.
  unfold well_formed_dict in Hwf. apply andb_prop in Hwf as [_ Hdistinct].
  specialize (Hentries Hdistinct Hprops name v Hin).
  now rewrite Hitem in Hentries.
Qed.

Lemma Object_present_property_witness :
  let named := [(PStr "foo", adapt_to_constant "seen");
                (PStr "bar", Validator (Some 0) Integer)] in
  let items := [(PStr "bar", PInt 2); (PStr "foo", PInt 1)] in
  let r := [(PStr "bar", PInt 2); (PStr "foo", PStr "seen")] in
  (exists adapted,
      validate default_store (adapt_to_constant "seen") (PInt 1) = Ok adapted /\
      lookup (PStr "foo") r = Some adapted) \/
  (exists ex,
      validate default_store (adapt_to_constant "seen") (PInt 1) = Invalid ex /\
      false = true /\ py_in (PStr "foo") [PStr "foo"] = false /\
      lookup (PStr "foo") r = None).
Proof.
  exact (Object_present_property default_store (Some 0) None []
           [PStr "foo"] [PStr "foo"; PStr "bar"] (OBool true) false
           [(PStr "foo", adapt_to_constant "seen");
            (PStr "bar", Validator (Some 0) Integer)]
           [(PStr "bar", PInt 2); (PStr "foo", PInt 1)]
           [(PStr "bar", PInt 2); (PStr "foo", PStr "seen")]
           (PStr "foo") (adapt_to_constant "seen") (PInt 1)
           eq_refl eq_refl eq_refl eq_refl eq_refl (or_introl eq_refl) eq_refl).
Defined.

(** X10.  What [Object] returns for a declared property that the input lacks:
    when [validate] returns a dict, a declared key absent from the input
    holds its default ([default], or [default()] for a callable) if it is an
    optional property with a default, and is absent from the result
    otherwise. *)
Theorem Object_absent_property (h : store) (ctx : option ctx_id)
  (all : option (list (pyvalue * pyobj)))
  (od : list (pyvalue * pydefault)) (rk ak : list pyvalue)
  (additional : pyobj) (ign : bool) (named : list (pyvalue * validator))
  (items r : dict) (name : pyvalue) (v : validator) :
  well_formed_dict items = true ->
  forallb hashable ak = true ->
  keys_distinct ak = true ->
  map fst named = ak ->
  validate h (Validator ctx (Object all od rk ak additional ign (Some named)))
           (PDict items) = Ok (PDict r) ->
  In (name, v) named ->
  lookup name items = None ->
  match lookup name od with
  | Some d => exists x, apply_default d = Ok x /\ lookup name r = Some x
  | None => lookup name r = None
  end.
Proof.
  intros Hwf Hh Hd Hnamed H Hin Hitem.
  apply Object_validate_Ok in H as (_ & r0 & Hprops & Hadd).
  assert (Hdeclared : py_in name ak = true).
  { rewrite <- Hnamed. apply In_py_in; [now rewrite Hnamed|].
    change name with (fst (name, v)). now apply in_map. }
  rewrite (Object_handle_additional_declared h _ ak additional items r0 r Hwf
             Hadd name Hdeclared).
  rewrite <- Hnamed in Hh, Hd.
  pose proof (Object_properties_entries (validate h) od rk ign items named Hh Hd
                items r0) as Hentries.
  unfold well_formed_dict in Hwf. apply andb_prop in Hwf as [_ Hdistinct].
  specialize (Hentries Hdistinct Hprops name v Hin).
  rewrite Hitem in Hentries.
  destruct (lookup name od); [exact Hentries | now rewrite Hentries].
Qed.

Lemma Object_absent_property_witness :
  exists x,
    apply_default (DefaultValue (PInt 0)) = Ok x /\
    lookup (PStr "bar") [(PStr "foo", PInt 1); (PStr "bar", PInt 0)] = Some x.
Proof.
  exact (Object_absent_property default_store (Some 0) None
           [(PStr "bar", DefaultValue (PInt 0))]
           [PStr "foo"] [PStr "foo"; PStr "bar"] (OBool true) false
           [(PStr "foo", Validator (Some 0) Integer);
            (PStr "bar", Validator (Some 0) Integer)]
           [(PStr "foo", PInt 1)]
           [(PStr "foo", PInt 1); (PStr "bar", PInt 0)]
           (PStr "bar") (Validator (Some 0) Integer)
           eq_refl eq_refl eq_refl eq_refl eq_refl
           (or_intror (or_introl eq_refl)) eq_refl).
Defined.

Lemma Object_init_loop_keys (properties : list (property * pyobj)) :
  forall all od rk all' od' rk',
  Object_init_loop properties all od rk = (all', od', rk') ->
  map fst all' = map fst all ++ map (fun p => property_key (fst p)) properties /\
  (forall k, In k rk' -> In k rk \/ In (Key k) (map fst properties)).
Proof.
  induction properties as [|[[p|key default] schema] rest IH];
    intros all od rk all' od' rk' H; cbn [Object_init_loop] in H.
  - injection H as <- <- <-. rewrite app_nil_r. auto.
  - apply IH in H as [Hall Hrk]. split.
    + rewrite Hall, map_app, <- app_assoc. reflexivity.
    + intros k Hk. destruct (Hrk k Hk) as [Hin|Hin].
      * unfold set_add in Hin. destruct (py_in p rk); [now left|].
        apply in_app_iff in Hin as [Hin|[<-|[]]]; [now left|].
        right. now left.
      * right. now right.
  - apply IH in H as [Hall Hrk]. split.
    + rewrite Hall, map_app, <- app_assoc. reflexivity.
    + intros k Hk. destruct (Hrk k Hk) as [Hin|Hin]; [now left|].
      right. now right.
Qed.

Lemma Object_parse_all_keys (P : ctx_id -> pyobj -> parser validator)
  (self : validator) (all : list (pyvalue * pyobj)) :
  forall h named h',
  Object_parse_all P self all h = Parsed named h' ->
  map fst named = map fst all.
Proof.
  induction all as [|[name schema] rest IH]; intros h named h' H;
    cbn [Object_parse_all] in H.
  - unfold pret in H. now injection H as <- <-.
  - parsed_inv. cbn [map fst]. f_equal. eauto.
Qed.

(** X11.  The keys of a parsed [Object]: [parse] of an [Object] built from a
    [properties] dict returns an [Object] whose validators are one per
    property, under the keys that the properties declare and in their order,
    which are also its declared keys ([_all_keys]); and every required key is
    a plain (not [Optional]) key of [properties]. *)
Theorem Object_init_parse_keys (fuel : nat) (c : ctx_id)
  (properties : list (property * pyobj)) (additional : pyobj) (ign : bool)
  (h h' : store) (v : validator) :
  parse fuel c (OValidator (Object_init properties additional ign)) h
  = Parsed v h' ->
  exists od rk ak additional' named,
    v = Validator (Some c) (Object None od rk ak additional' ign (Some named)) /\
    ak = map (fun p => property_key (fst p)) properties /\
    map fst named = ak /\
    (forall k, In k rk -> In (Key k) (map fst properties)).
Proof.
  intros H. destruct fuel as [|fuel]; [discriminate H|].
  rewrite parse_OValidator in H. unfold Object_init in H.
  destruct (Object_init_loop properties [] [] []) as [[all od] rk] eqn:Hinit.
  apply Object_init_loop_keys in Hinit as [Hall Hrk].
  cbn [app] in Hall.
  cbn [set_validation_context parse_hook] in H.
  parsed_inv. apply Object_parse_all_keys in Hm0.
  exists od, rk, (map fst all), a, a0. split; [reflexivity|].
  split; [exact Hall|]. split; [exact Hm0|].
  intros k Hk. destruct (Hrk k Hk) as [[]|Hin]. exact Hin.
Qed.

Lemma Object_init_parse_keys_witness :
  let properties := [(Key (PStr "foo"), OStr "number");
                     (Optional (PStr "bar") None, OStr "string")] in
  exists v h',
    parse 2 0 (OValidator (Object_init properties (OBool true) false))
          default_store = Parsed v h' /\
    exists od rk ak additional' named,
      v = Validator (Some 0)
            (Object None od rk ak additional' false (Some named)) /\
      ak = [PStr "foo"; PStr "bar"] /\
      map fst named = ak /\
      (forall k, In k rk -> In (Key k) (map fst properties)).
Proof.
  cbv zeta. eexists. eexists. split.
  - reflexivity.
  - exact (Object_init_parse_keys 2 0
             [(Key (PStr "foo"), OStr "number");
              (Optional (PStr "bar") None, OStr "string")]
             (OBool true) false default_store _ _ eq_refl).
Defined.

(** X12.  The bounds of [String]: [validate] accepts a value exactly when it
    is a string whose length is at least [min_length] and at most
    [max_length] (an absent bound holding), and then returns it as it is. *)
Theorem String_accepts_iff (h : store) (ctx : option ctx_id)
  (min_length max_length : option Z) (value result : pyvalue) :
  validate h (Validator ctx (String_ min_length max_length)) value = Ok result
  <-> result = value /\ is_string value = true /\
      within_bounds min_length max_length (py_len value) = true.
Proof.
  cbn [validate]. unfold String_validate. split.
  - intros H.
    destruct (Type_validate h _ [CStr] [] value) as [r| |] eqn:Htype;
      try discriminate H.
    apply Type_validate_Ok in Htype as (_ & Hs & _).
    assert (Hstr : is_string value = true)
      by (destruct value; try discriminate Hs; reflexivity).
    cbn [bind] in H. rewrite within_bounds_checks.
    destruct min_length as [m|], max_length as [m'|];
      repeat match type of H with
             | context [(?a <? ?b)%Z] => destruct (a <? b)%Z eqn:?
             | context [(?a >? ?b)%Z] => destruct (a >? b)%Z eqn:?
             end; cbn [bind] in H; try discriminate H;
      injection H as <-; auto.
  - intros (-> & Hstr & Hbounds).
    apply within_bounds_checks in Hbounds as [Hmin Hmax].
    rewrite Type_validate_accepts;
      [|destruct value; try discriminate Hstr; reflexivity | reflexivity].
    cbn [bind].
    destruct min_length; [rewrite Hmin|]; cbn [bind];
      (destruct max_length; [rewrite Hmax|]; reflexivity).
Qed.

Lemma String_accepts_iff_witness :
  validate default_store (Validator (Some 0) (String_ (Some 1%Z) (Some 3%Z)))
           (PStr "abc") = Ok (PStr "abc").
Proof.
  apply (proj2 (String_accepts_iff default_store (Some 0) (Some 1%Z) (Some 3%Z)
                  (PStr "abc") (PStr "abc"))).
  repeat split.
Defined.

(** X13.  [None] comes last in a parsed [Nullable]: its validator is an
    [AnyOf] whose last component is the [NoneValue] validator, so that the
    first component of the schema that accepts the value gives the result,
    also for [None]; when they all reject, [None] is adapted to the default
    and any other value is rejected with their messages and that of
    [NoneValue], joined by [" or "]. *)
Theorem Nullable_validate_None_last (h : store) (ctx actx : option ctx_id)
  (nctx : ctx_id) (schema : option pyobj) (aschemas : option (list pyobj))
  (default default' : pydefault) (validators : list validator)
  (value : pyvalue) :
  let none_validator := Validator (Some nctx) (NoneValue default) in
  let nullable :=
    Validator ctx
      (Nullable schema default'
         (Some (Validator actx
                  (AnyOf aschemas (validators ++ [none_validator]))))) in
  (forall pre c post adapted,
      validators = pre ++ c :: post ->
      Forall (fun v => exists ex, validate h v value = Invalid ex) pre ->
      validate h c value = Ok adapted ->
      validate h nullable value = Ok adapted) /\
  (forall adapted,
      Forall (fun v => exists ex, validate h v value = Invalid ex) validators ->
      value = PNone ->
      apply_default default = Ok adapted ->
      validate h nullable value = Ok adapted) /\
  (forall errors,
      Forall2 (fun v ex => validate h v value = Invalid ex) validators errors ->
      value <> PNone ->
      validate h nullable value
      = Invalid (mkValidationError actx
                   (join " or "
                      (map msg errors ++
                       ["must be " +:+
                        get_type_name (type_names (h nctx)) CNoneType]))
                   (Some value) [])).
Proof.
  cbv zeta. split; [|split].
  - intros pre c post adapted -> Hpre Hc.
    cbn [validate Nullable_validate]. unfold AnyOf_validate.
    rewrite <- app_assoc. cbn [app].
    now apply AnyOf_loop_first_accept.
  - intros adapted Hpre -> Hdefault.
    cbn [validate Nullable_validate]. unfold AnyOf_validate.
    now apply AnyOf_loop_first_accept.
  - intros errors Herrors Hvalue.
    cbn [validate Nullable_validate]. unfold AnyOf_validate.
    rewrite (AnyOf_loop_all_reject (validate h) _ value _
               (errors ++
                [new_error (Some nctx)
                   ("must be " +:+
                    get_type_name (type_names (h nctx)) CNoneType) value]) []).
    + rewrite map_app. reflexivity.
    + apply Forall2_app; [exact Herrors|]. constructor; [|constructor].
      destruct value; try reflexivity. now elim Hvalue.
Qed.

Lemma Nullable_validate_None_last_witness :
  let nullable validators :=
    Validator (Some 0)
      (Nullable None (DefaultValue (PInt 0))
         (Some (Validator (Some 0)
                  (AnyOf None
                     (validators ++
                      [Validator (Some 0) (NoneValue (DefaultValue (PInt 0)))]))))) in
  validate default_store (nullable [adapt_to_constant "first"]) PNone
  = Ok (PStr "first") /\
  validate default_store (nullable [Validator (Some 0) Integer]) PNone
  = Ok (PInt 0) /\
  validate default_store (nullable [Validator (Some 0) Integer]) (PStr "x")
  = Invalid (mkValidationError (Some 0) "must be integer or must be NoneType"
               (Some (PStr "x")) []).
Proof.
  cbv zeta. split; [|split].
  - apply (proj1 (Nullable_validate_None_last default_store (Some 0) (Some 0) 0
                    None None (DefaultValue (PInt 0)) (DefaultValue (PInt 0))
                    [adapt_to_constant "first"] PNone)
             [] (adapt_to_constant "first") [] (PStr "first")).
    + reflexivity.
    + constructor.
    + reflexivity.
  - apply (proj1 (proj2 (Nullable_validate_None_last default_store (Some 0)
                           (Some 0) 0 None None (DefaultValue (PInt 0))
                           (DefaultValue (PInt 0))
                           [Validator (Some 0) Integer] PNone))
             (PInt 0)).
    + repeat constructor. eexists. reflexivity.
    + reflexivity.
    + reflexivity.
  - apply (proj2 (proj2 (Nullable_validate_None_last default_store (Some 0)
                           (Some 0) 0 None None (DefaultValue (PInt 0))
                           (DefaultValue (PInt 0))
                           [Validator (Some 0) Integer] (PStr "x")))
             [mkValidationError (Some 0) "must be integer" (Some (PStr "x")) []]).
    + repeat constructor.
    + discriminate.
Defined.

(** *** More on the validation context *)

(** X14.  [register] and lookup: after [register(name, validator)] with a
    [Validator] instance, the name resolves to that instance, whatever was
    registered under it before, so that [parse(name)] is [parse(validator)];
    the other names and the other contexts are as before.  Anything but a
    [Validator] instance is refused with [ValidatorTypeError]. *)
Theorem register_then_parse (c : ctx_id) (name : pyvalue) (h : store) :
  (forall (v : validator) (obj : pyobj),
      as_key obj = Some name ->
      exists h',
        register c name (OValidator v) h = Parsed tt h' /\
        named_lookup (h' c) obj = Some (OValidator v) /\
        (forall fuel, parse fuel c obj h' = parse fuel c (OValidator v) h') /\
        (forall k, py_eqb k name = false ->
           lookup k (named_validators (h' c))
           = lookup k (named_validators (h c))) /\
        (forall c', c' <> c -> h' c' = h c')) /\
  (forall obj : pyobj,
      (forall v, obj <> OValidator v) ->
      exists x, register c name obj h = Failed x /\
                exn_class x = "ValidatorTypeError").
Proof.
  split.
  - intros v obj Hkey.
    pose proof (as_key_hashable obj name Hkey) as Hname.
    eexists. split; [reflexivity|].
    assert (Hlookup :
      named_lookup
        (store_set h c
           (mkValidationContext (type_names (h c))
              (assign name (OValidator v) (named_validators (h c)))
              (validators_factories (h c)) (repr (h c))) c) obj
      = Some (OValidator v)).
    { unfold named_lookup. rewrite Hkey, store_set_same.
      cbn [named_validators]. apply lookup_assign_eq; auto.
      now apply py_eqb_refl. }
    split; [exact Hlookup|]. split; [|split].
    + intros [|fuel]; [reflexivity|]. cbn [parse].
      assert (Hget : forall h', named_lookup (h' c) obj = Some (OValidator v) ->
                _get_validator c obj h' = Parsed (Some (OValidator v)) h').
      { intros h' Hl. unfold _get_validator. now rewrite Hl. }
      destruct obj; try discriminate Hkey;
        unfold pbind; rewrite (Hget _ Hlookup); reflexivity.
    + intros k Hk. rewrite store_set_same. cbn [named_validators].
      now apply lookup_assign_neq.
    + intros c' Hc'. now apply store_set_other.
  - intros obj Hobj.
    destruct obj as [v| | | | | | | | | | |];
      try (eexists; split; reflexivity).
    now elim (Hobj v).
Qed.

Lemma register_then_parse_witness :
  let even := Validator None (Condition "even" (fun _ => Ok true) (fun _ => true)) in
  (exists h',
    register 0 (PStr "integer") (OValidator even) default_store = Parsed tt h' /\
    named_lookup (h' 0) (OStr "integer") = Some (OValidator even) /\
    (forall fuel, parse fuel 0 (OStr "integer") h'
                  = parse fuel 0 (OValidator even) h') /\
    (forall k, py_eqb k (PStr "integer") = false ->
       lookup k (named_validators (h' 0))
       = lookup k (named_validators (default_store 0))) /\
    (forall c', c' <> 0 -> h' c' = default_store c')) /\
  (exists x, register 0 (PStr "integer") (OStr "number") default_store = Failed x /\
             exn_class x = "ValidatorTypeError").
Proof.
  cbv zeta. split.
  - exact (proj1 (register_then_parse 0 (PStr "integer") default_store)
             (Validator None (Condition "even" (fun _ => Ok true) (fun _ => true)))
             (OStr "integer") eq_refl).
  - apply (proj2 (register_then_parse 0 (PStr "integer") default_store)
             (OStr "number")).
    discriminate.
Defined.

(** X15.  Memoization: when a name is registered with a [Validator] subclass,
    [_get_validator] instantiates the class and stores the instance under the
    name, so that the name then resolves to that instance and a second call
    returns the same instance and leaves the context as it is. *)
Theorem _get_validator_memoizes (c : ctx_id) (obj : pyobj) (h : store)
  (cls_name : string) (v : validator) :
  named_lookup (h c) obj = Some (OValidatorClass cls_name (Some v)) ->
  exists h',
    _get_validator c obj h = Parsed (Some (OValidator v)) h' /\
    named_lookup (h' c) obj = Some (OValidator v) /\
    _get_validator c obj h' = Parsed (Some (OValidator v)) h' /\
    validators_factories (h' c) = validators_factories (h c) /\
    (forall c', c' <> c -> h' c' = h c').
Proof.
  intros Hclass. unfold _get_validator at 1. rewrite Hclass.
  unfold named_lookup in Hclass.
  destruct (as_key obj) as [k|] eqn:Hkey; [|discriminate Hclass].
  pose proof (as_key_hashable obj k Hkey) as Hk.
  eexists. split; [reflexivity|].
  assert (Hlookup :
    named_lookup
      (store_set h c
         (mkValidationContext (type_names (h c))
            (assign k (OValidator v) (named_validators (h c)))
            (validators_factories (h c)) (repr (h c))) c) obj
    = Some (OValidator v)).
  { unfold named_lookup. rewrite Hkey, store_set_same.
    cbn [named_validators]. apply lookup_assign_eq; auto.
    now apply py_eqb_refl. }
  split; [exact Hlookup|]. split; [|split].
  - unfold _get_validator. now rewrite Hlookup.
  - now rewrite store_set_same.
  - intros c' Hc'. now apply store_set_other.
Qed.

Lemma _get_validator_memoizes_witness :
  exists h',
    _get_validator 0 (OStr "integer") default_store
    = Parsed (Some (OValidator (Validator None Integer))) h' /\
    named_lookup (h' 0) (OStr "integer")
    = Some (OValidator (Validator None Integer)) /\
    _get_validator 0 (OStr "integer") h'
    = Parsed (Some (OValidator (Validator None Integer))) h' /\
    validators_factories (h' 0) = validators_factories (default_store 0) /\
    (forall c', c' <> 0 -> h' c' = default_store c').
Proof.
  exact (_get_validator_memoizes 0 (OStr "integer") default_store "Integer"
           (Validator None Integer) eq_refl).
Defined.

(** X16.  [parse] is idempotent: the validator that [parse] returns is bound
    to a context, and [parse] of that validator, by any context, returns it
    as it is and changes no context. *)
Theorem parse_idempotent (fuel : nat) (c : ctx_id) (obj : pyobj)
  (h h' : store) (v : validator) :
  parse fuel c obj h = Parsed v h' ->
  bound_context v <> None /\
  forall (fuel' : nat) (c' : ctx_id) (h'' : store),
    parse (S fuel') c' (OValidator v) h'' = Parsed v h''.
Proof.
  intros H. apply parse_result_settled in H. split.
  - now apply settled_bound.
  - intros fuel' c' h''. now apply parse_of_settled.
Qed.

Lemma parse_idempotent_witness :
  exists v h',
    parse 2 0 (OList [OStr "integer"]) default_store = Parsed v h' /\
    bound_context v <> None /\
    forall (fuel' : nat) (c' : ctx_id) (h'' : store),
      parse (S fuel') c' (OValidator v) h'' = Parsed v h''.
Proof.
  eexists. eexists. split.
  - reflexivity.
  - exact (parse_idempotent 2 0 (OList [OStr "integer"]) default_store _ _
             eq_refl).
Defined.

(** X17.  [SchemaError]: [parse] of an object that is neither a [Validator]
    instance nor a [Validator] subclass raises [SchemaError] for that object
    when it is no registered name and every factory returns [None] for it,
    and also when it is the name of something that is neither a [Validator]
    instance nor a [Validator] subclass. *)
Theorem parse_SchemaError (fuel : nat) (c : ctx_id) (obj : pyobj) (h : store) :
  (forall v, obj <> OValidator v) ->
  (forall cls_name new, obj <> OValidatorClass cls_name new) ->
  (named_lookup (h c) obj = None ->
   Forall (fun nf => snd nf obj = None) (validators_factories (h c)) ->
   parse (S fuel) c obj h = SchemaError obj) /\
  (forall registered,
   named_lookup (h c) obj = Some registered ->
   (forall v, registered <> OValidator v) ->
   (forall cls_name new, registered <> OValidatorClass cls_name new) ->
   parse (S fuel) c obj h = SchemaError obj).
Proof.
  intros Hinstance Hclass.
  assert (Hloop : forall fs, Forall (fun nf => snd nf obj = None) fs ->
                             factories_loop fs obj = None).
  { intros fs Hfs. induction Hfs as [|[n f] fs Hf _ IH]; [reflexivity|].
    cbn [factories_loop]. simpl in Hf. now rewrite Hf. }
  split.
  - intros Hname Hnone.
    assert (Hget : _get_validator c obj h = Parsed None h).
    { unfold _get_validator, iteritems. now rewrite Hname, Hloop. }
    cbn [parse]. unfold pbind.
    destruct obj; try (now rewrite Hget).
    + now elim (Hinstance v).
    + now elim (Hclass cls_name new).
  - intros registered Hname H1 H2.
    assert (Hget : _get_validator c obj h = Parsed (Some registered) h).
    { unfold _get_validator. rewrite Hname.
      destruct registered; try reflexivity. now elim (H2 cls_name new). }
    cbn [parse]. unfold pbind.
    destruct obj;
      try (rewrite Hget; destruct registered; try reflexivity;
           now elim (H1 v)).
    + now elim (Hinstance v).
    + now elim (Hclass cls_name new).
Qed.

Lemma parse_SchemaError_witness :
  let h : store :=
    fun _ => mkValidationContext [] [(PStr "answer", OInt 42)] [] plain_repr in
  parse 1 0 (OStr "foo") default_store = SchemaError (OStr "foo") /\
  parse 1 0 (OStr "answer") h = SchemaError (OStr "answer").
Proof.
  cbv zeta. split.
  - apply (proj1 (parse_SchemaError 0 0 (OStr "foo") default_store
                    ltac:(discriminate) ltac:(discriminate))).
    + reflexivity.
    + repeat constructor.
  - apply (proj2 (parse_SchemaError 0 0 (OStr "answer")
                    (fun _ => mkValidationContext [] [(PStr "answer", OInt 42)]
                                [] plain_repr)
                    ltac:(discriminate) ltac:(discriminate))
             (OInt 42)).
    + reflexivity.
    + discriminate.
    + discriminate.
Defined.

(** *** Type names *)

Lemma pyclass_eqb_eq (c d : pyclass) : pyclass_eqb c d = true <-> c = d.
Proof.
  split.
  - destruct c, d; cbn [pyclass_eqb]; intros H; try discriminate H;
      try reflexivity.
    apply String.eqb_eq in H. now subst.
  - intros <-. destruct c; cbn [pyclass_eqb]; try reflexivity.
    apply String.eqb_refl.
Qed.

Lemma type_names_get_set (names : TypeNames) (t t' : pyclass) (name : string) :
  type_names_get (type_names_set names t' name) t
  = if pyclass_eqb t t' then Some name else type_names_get names t.
Proof.
  induction names as [|[t0 n0] names IH]; cbn [type_names_set type_names_get].
  - reflexivity.
  - destruct (pyclass_eqb t' t0) eqn:H0; cbn [type_names_get].
    + apply pyclass_eqb_eq in H0 as <-.
      now destruct (pyclass_eqb t t').
    + destruct (pyclass_eqb t t0) eqn:H1.
      * apply pyclass_eqb_eq in H1 as <-.
        destruct (pyclass_eqb t t') eqn:H2; [|reflexivity].
        apply pyclass_eqb_eq in H2 as <-.
        assert (pyclass_eqb t t = true) as E by now apply pyclass_eqb_eq.
        congruence.
      * exact IH.
Qed.

Lemma set_name_for_types_get (names : TypeNames) (name : string)
  (types : list pyclass) (t : pyclass) :
  type_names_get (set_name_for_types names name types) t
  = if existsb (pyclass_eqb t) types then Some name else type_names_get names t.
Proof.
  unfold set_name_for_types. revert names.
  induction types as [|t' types IH]; intros names; cbn [fold_left existsb].
  - reflexivity.
  - rewrite IH, type_names_get_set.
    destruct (existsb (pyclass_eqb t) types), (pyclass_eqb t t'); reflexivity.
Qed.

(** X19.  [set_name_for_types] and [get_type_name]: after
    [set_name_for_types(name, *types)] every listed type has the (non-empty)
    name, replacing an earlier one, and every other type has the name it had
    before; a type without a name, or with an empty one, has its
    [__name__]. *)
Theorem set_name_for_types_get_type_name (names : TypeNames) (name : string)
  (types : list pyclass) (t : pyclass) :
  (In t types -> name <> "" ->
   get_type_name (set_name_for_types names name types) t = name) /\
  (~ In t types ->
   get_type_name (set_name_for_types names name types) t
   = get_type_name names t) /\
  (type_names_get names t = None \/ type_names_get names t = Some "" ->
   get_type_name names t = class_name t).
Proof.
  unfold get_type_name. rewrite set_name_for_types_get. repeat split.
  - intros Hin Hname.
    assert (existsb (pyclass_eqb t) types = true) as ->.
    { apply existsb_exists. exists t. split; [exact Hin|].
      now apply pyclass_eqb_eq. }
    destruct name; [now elim Hname|reflexivity].
  - intros Hin.
    assert (existsb (pyclass_eqb t) types = false) as ->; [|reflexivity].
    apply Bool.not_true_is_false. intros H.
    apply existsb_exists in H as [t' [Ht' E]].
    apply pyclass_eqb_eq in E as <-. now elim Hin.
  - intros [-> | ->]; reflexivity.
Qed.

Lemma set_name_for_types_get_type_name_witness :
  let names := set_name_for_types [(CInt, "integer")] "number" [CInt; CFloat] in
  get_type_name names CFloat = "number" /\
  get_type_name names CInt = "number" /\
  get_type_name names CStr = get_type_name [(CInt, "integer")] CStr /\
  get_type_name [(CInt, "integer")] CStr = "str".
Proof.
  cbv zeta. split; [|split; [|split]].
  - apply (proj1 (set_name_for_types_get_type_name [(CInt, "integer")] "number"
                    [CInt; CFloat] CFloat)).
    + simpl. auto.
    + discriminate.
  - apply (proj1 (set_name_for_types_get_type_name [(CInt, "integer")] "number"
                    [CInt; CFloat] CInt)).
    + simpl. auto.
    + discriminate.
  - apply (proj1 (proj2 (set_name_for_types_get_type_name [(CInt, "integer")]
                           "number" [CInt; CFloat] CStr))).
    simpl. intros [H|[H|[]]]; discriminate H.
  - apply (proj2 (proj2 (set_name_for_types_get_type_name [(CInt, "integer")]
                           "number" [CInt; CFloat] CStr))).
    left. reflexivity.
Defined.

(** X20.  [format_types]: a single type is rendered as its name; two or more
    types as the names of all but the last joined by [", "], then [" or "]
    and the name of the last; with no types the [names[-1]] raises
    [IndexError]. *)
Theorem format_types_rendering (type_names : TypeNames) :
  (exists x, format_types type_names [] = Raise x /\
             exn_class x = "IndexError") /\
  (forall t, format_types type_names [t] = Ok (get_type_name type_names t)) /\
  (forall first front last,
     format_types type_names (first :: front ++ [last])
     = Ok (join ", " (map (get_type_name type_names) (first :: front))
           +:+ " or " +:+ get_type_name type_names last)).
Proof.
  split; [|split].
  - eexists. split; reflexivity.
  - reflexivity.
  - intros first front last. unfold format_types.
    change (first :: front ++ [last]) with ((first :: front) ++ [last]).
    rewrite map_app, rev_app_distr. cbn [map rev app].
    set (f := get_type_name type_names).
    destruct (rev (map f front) ++ [f first]) as [|s rest] eqn:E.
    + now destruct (rev (map f front)).
    + rewrite <- E, rev_app_distr, rev_involutive. reflexivity.
Qed.

Lemma parse_by_factory (fuel : nat) (c : ctx_id) (obj : pyobj) (h : store)
  (v : validator) :
  (forall v0, obj <> OValidator v0) ->
  (forall cls_name new, obj <> OValidatorClass cls_name new) ->
  named_lookup (h c) obj = None ->
  factories_loop (validators_factories (h c)) obj = Some (OValidator v) ->
  parse (S fuel) c obj h = parse (S fuel) c (OValidator v) h.
Proof.
  intros Hinstance Hclass Hname Hloop.
  assert (Hget : _get_validator c obj h = Parsed (Some (OValidator v)) h).
  { unfold _get_validator, iteritems. now rewrite Hname, Hloop. }
  cbn [parse]. unfold pbind at 1.
  destruct obj; try (now rewrite Hget).
  - now elim (Hinstance v0).
  - now elim (Hclass cls_name new).
Qed.

(** X21.  Lists, dicts and tuples as schemas: in a context with the default
    factories, [parse] of a list [[]] or [[schema]] is [parse] of
    [HomogeneousSequence] of its items, of a dict is [parse] of [Object(obj)]
    with the additional properties allowed, and of a tuple that is no
    registered name is [parse] of [HeterogeneousSequence] of its items.  In
    particular the validator of [[schema]] is the sequence validator whose
    item validator is the one that [parse] returns for [schema]. *)
Theorem parse_default_shorthand (compatible_repr : pyvalue -> string)
  (fuel : nat) (c : ctx_id) (h : store) :
  validators_factories (h c)
  = validators_factories (make_default_validation_context compatible_repr) ->
  parse (S fuel) c (OList []) h
  = parse (S fuel) c
      (OValidator (Validator None (HomogeneousSequence (Some None) None None None)))
      h /\
  (forall schema,
     parse (S fuel) c (OList [schema]) h
     = parse (S fuel) c
         (OValidator
            (Validator None
               (HomogeneousSequence (Some (not_None schema)) None None None)))
         h) /\
  (forall schema v h',
     schema <> ONone ->
     parse fuel c schema h = Parsed v h' ->
     parse (S fuel) c (OList [schema]) h
     = Parsed (Validator (Some c) (HomogeneousSequence None None None (Some v)))
         h') /\
  (forall properties,
     parse (S fuel) c (ODict properties) h
     = parse (S fuel) c (OValidator (Object_init properties (OBool true) false))
         h) /\
  (forall items,
     named_lookup (h c) (OTuple items) = None ->
     parse (S fuel) c (OTuple items) h
     = parse (S fuel) c
         (OValidator (Validator None (HeterogeneousSequence (Some items) [])))
         h).
Proof.
  intros Hfactories.
  assert (Hlist : forall schema,
     parse (S fuel) c (OList [schema]) h
     = parse (S fuel) c
         (OValidator
            (Validator None
               (HomogeneousSequence (Some (not_None schema)) None None None)))
         h).
  { intros schema. apply parse_by_factory; try discriminate; try reflexivity.
    now rewrite Hfactories. }
  repeat split; try exact Hlist; intros;
    try (apply parse_by_factory; try discriminate; try reflexivity;
         try assumption; now rewrite Hfactories).
  rewrite Hlist, parse_OValidator.
  cbn [set_validation_context].
  assert (not_None schema = Some schema) as -> by now destruct schema.
  cbn [parse_hook]. unfold pbind, val_context_parse. cbn [bound_context].
  now rewrite H0.
Qed.

Lemma parse_default_shorthand_witness :
  exists v h',
    parse 1 0 (OStr "integer") default_store = Parsed v h' /\
    parse 2 0 (OList [OStr "integer"]) default_store
    = Parsed (Validator (Some 0) (HomogeneousSequence None None None (Some v)))
        h'.
Proof.
  eexists. eexists. split.
  - reflexivity.
  - apply (proj1 (proj2 (proj2 (parse_default_shorthand plain_repr 1 0
                                  default_store eq_refl)))).
    + discriminate.
    + reflexivity.
Defined.
